(** * Cloudinary build integration: the [onBuild] and [onPostBuild] handlers

    A shallow embedding of the two build event handlers of the integration
    (the Resolution Pass and the Rewrite Pass) and the properties of their
    precondition checks, asset cache and redirect emission.

    JavaScript values are modelled by what the handlers can observe of them:
    an optional string is [option string] ([None] is [undefined]), the
    console and the [utils.build] failure channels are a chronological list
    of events, [netlifyConfig.redirects] is a list whose head is index 0,
    and the promises of the handlers are settled in an order chosen by a
    schedule. *)

From Stdlib Require Import String Ascii List Bool Arith Lia Permutation DecimalString.
Import ListNotations.

Open Scope string_scope.
Open Scope list_scope.

(** Template literals: [`${a}${b}`] is [a ^ b]. *)
Notation "a ^ b" := (String.append a b) : string_scope.

(** ** JavaScript strings and optional values *)

Module Js.

(** [!v] for a value that is a string or [undefined]. *)
Definition falsy (v : option string) : bool :=
  match v with
  | None => true
  | Some s => (s =? "")%string
  end.

(** [a || b] on optional strings. *)
Definition or (a b : option string) : option string :=
  if falsy a then b else a.

(** A destructuring default [{ x = d }]: used only when [x] is [undefined]. *)
Definition default {A : Type} (v : option A) (d : option A) : option A :=
  match v with
  | Some x => Some x
  | None => d
  end.

(** [`${v}`] for a value that is a string or [undefined]. *)
Definition tmpl (v : option string) : string :=
  match v with
  | Some s => s
  | None => "undefined"
  end.

(** [a === b] for a possibly undefined string and a literal. *)
Definition eqs (a : option string) (lit : string) : bool :=
  match a with
  | Some s => (s =? lit)%string
  | None => false
  end.

Fixpoint drop (n : nat) (s : string) : string :=
  match n, s with
  | O, _ => s
  | S _, EmptyString => EmptyString
  | S n', String _ s' => drop n' s'
  end.

(** [s.replace(pat, '')] with a string pattern: the first occurrence of
    [pat] in [s] is removed, wherever it starts. *)
Fixpoint replace (s pat : string) : string :=
  if String.prefix pat s then drop (String.length pat) s
  else match s with
       | EmptyString => EmptyString
       | String c s' => String c (replace s' pat)
       end.

(** [String(array)]: the elements joined by commas. *)
Definition join (l : list string) : string := String.concat "," l.

End Js.

(** ** Data model *)

(** [z.string().or(z.array(z.string()))] *)
Inductive ImagesPath : Type :=
| PathString (s : string)
| PathArray (l : list string).

Inductive LoadingStrategy : Type := lazy | eager.

(** [buildConfigSchema]: every key is optional. *)
Module BuildConfig.
Record t : Type := make {
    cloudName : option string;
    cname : option string;
    deliveryType : option string;
    folder : option string;
    imagesPath : option ImagesPath;
    privateCdn : option bool;
    loadingStrategy : option LoadingStrategy;
    uploadPreset : option string
  }.

  (** [buildConfig = {}] *)
Definition empty : t := make None None None None None None None None.
End BuildConfig.

(** The variables of [process.env] the handlers read. *)
Module Env.
Record t : Type := make {
    CONTEXT : option string;
    NETLIFY_HOST : option string;
    DEPLOY_PRIME_URL : option string;
    SITE_NAME : option string;
    CLOUDINARY_CLOUD_NAME : option string;
    CLOUDINARY_API_KEY : option string;
    CLOUDINARY_API_SECRET : option string
  }.
End Env.

(** An entry of [netlifyConfig.redirects]. *)
Module Redirect.
Record t : Type := make {
    from : string;
    to : string;
    status : nat;
    force : bool
  }.
End Redirect.

(** An entry of [CLOUDINARY_ASSET_DIRECTORIES]. *)
Module AssetDirectory.
Record t : Type := make {
    name : string;
    inputKey : string;
    path : string
  }.
End AssetDirectory.

Definition CLOUDINARY_ASSET_DIRECTORIES : list AssetDirectory.t :=
  [ AssetDirectory.make "images" "imagesPath" "/images" ].

(** What a [throw] or a rejected promise carries: an [Error] object with its
    message, or any other value (the handler passes it on [as string]). *)
Inductive Thrown : Type :=
| ErrorObject (message : string)
| OtherValue (v : string).

Inductive Result (A : Type) : Type :=
| Ok (a : A)
| Throw (e : Thrown).
Arguments Ok {A} a.
Arguments Throw {A} e.

(** The argument object of [configureCloudinary]. *)
Module CloudinaryConfig.
Record t : Type := make {
    cloudName : option string;
    apiKey : option string;
    apiSecret : option string;
    cname : option string;
    privateCdn : option bool
  }.
End CloudinaryConfig.

(** The argument object of [getCloudinaryUrl]; a key the call site leaves
    out is [None]. *)
Module UrlOptions.
Record t : Type := make {
    deliveryType : string;
    folder : option string;
    path : string;
    localDir : option string;
    uploadPreset : option string;
    remoteHost : option string
  }.
End UrlOptions.

(** What [getCloudinaryUrl] resolves to. The handlers read [cloudinaryUrl]
    only; [publicId] stands for the rest of the object, which is spread
    into the asset record unchanged. *)
Module CloudinaryUrl.
Record t : Type := make {
    cloudinaryUrl : string;
    publicId : option string
  }.
End CloudinaryUrl.

(** An element of [_cloudinaryAssets.images]: [{ publishPath, ...cloudinary }]. *)
Module Asset.
Record t : Type := make {
    publishPath : string;
    cloudinary : CloudinaryUrl.t
  }.
Definition cloudinaryUrl (a : t) : string :=
    CloudinaryUrl.cloudinaryUrl (cloudinary a).
End Asset.

(** [_cloudinaryAssets]: one key, [images]. *)
Module Assets.
Record t : Type := make { images : list Asset.t }.

  (** [{ images: {} }]: nothing to iterate over before the assignment. *)
Definition initial : t := make [].

Definition keys (_ : t) : list string := [ "images" ].

  (** [_cloudinaryAssets[mediaType]] *)
Definition get (a : t) (mediaType : string) : list Asset.t :=
    if (mediaType =? "images")%string then images a else [].
End Assets.

(** What [updateHtmlImagesToCloudinary] resolves to. *)
Module Rewritten.
Record t : Type := make {
    html : string;
    errors : list string
  }.
End Rewritten.

(** The argument object of [updateHtmlImagesToCloudinary]. *)
Module RewriteOptions.
Record t : Type := make {
    assets : Assets.t;
    deliveryType : string;
    uploadPreset : option string;
    folder : option string;
    localDir : string;
    remoteHost : option string
  }.
End RewriteOptions.

(** An element of [results] in [onPostBuild]: [{ page, errors }]. *)
Module PageResult.
Record t : Type := make {
    page : string;
    errors : list string
  }.
End PageResult.

(** A value read by a computed key, [buildConfig[inputKey]]. *)
Inductive JsValue : Type :=
| JUndefined
| JString (s : string)
| JArray (l : list string)
| JBool (b : bool).

Module JsValue.
Definition of_string (v : option string) : JsValue :=
  match v with Some s => JString s | None => JUndefined end.

Definition truthy (v : JsValue) : bool :=
  match v with
  | JUndefined => false
  | JString s => negb (s =? "")%string
  | JArray _ => true
  | JBool b => b
  end.

(** [a || b] *)
Definition or (a b : JsValue) : JsValue := if truthy a then a else b.
End JsValue.

(** [buildConfig[key]] *)
Definition BuildConfig_get (c : BuildConfig.t) (key : string) : JsValue :=
  if (key =? "cloudName")%string then JsValue.of_string (BuildConfig.cloudName c)
  else if (key =? "cname")%string then JsValue.of_string (BuildConfig.cname c)
  else if (key =? "deliveryType")%string then JsValue.of_string (BuildConfig.deliveryType c)
  else if (key =? "folder")%string then JsValue.of_string (BuildConfig.folder c)
  else if (key =? "imagesPath")%string then
    match BuildConfig.imagesPath c with
    | Some (PathString s) => JString s
    | Some (PathArray l) => JArray l
    | None => JUndefined
    end
  else if (key =? "privateCdn")%string then
    match BuildConfig.privateCdn c with
    | Some b => JBool b
    | None => JUndefined
    end
  else if (key =? "loadingStrategy")%string then
    match BuildConfig.loadingStrategy c with
    | Some lazy => JString "lazy"
    | Some eager => JString "eager"
    | None => JUndefined
    end
  else if (key =? "uploadPreset")%string then JsValue.of_string (BuildConfig.uploadPreset c)
  else JUndefined.

(** [`${imagesPath}`] *)
Definition ImagesPath_tmpl (p : ImagesPath) : string :=
  match p with
  | PathString s => s
  | PathArray l => Js.join l
  end.

(** ** The world the handlers act on *)

(** An argument of a console call. *)
Inductive LogArg : Type :=
| Text (s : string)
| Value (e : Thrown)
| Json (results : list PageResult.t).

(** The calls the handlers make on the console, on [utils.build], and the
    assignments to the asset cache, in the order they happen. *)
Inductive Event : Type :=
| ConsoleLog (args : list LogArg)
| ConsoleWarn (args : list LogArg)
| ConsoleError (args : list LogArg)
| FailPlugin (msg : string)
| FailBuild (msg : string)
| AssignImages (records : list Asset.t).

(** A callback of [mediaPaths.forEach] suspended at its [await]: nothing
    waits for it, it resumes when the promise of [getCloudinaryUrl] settles. *)
Module FetchTask.
Record t : Type := make {
  mediaPath : string;
  cldAssetPath : string;
  awaited : Result CloudinaryUrl.t
}.
End FetchTask.

Module World.
Record t : Type := make {
  events : list Event;
  redirects : list Redirect.t;            (* netlifyConfig.redirects *)
  cloudinaryAssets : Assets.t;            (* _cloudinaryAssets *)
  cloudinary : option CloudinaryConfig.t; (* set by configureCloudinary *)
  files : list (string * string);         (* path and content, newest first *)
  pending : list FetchTask.t
}.

Definition initial (redirects : list Redirect.t) (files : list (string * string)) : t :=
  make [] redirects Assets.initial None files [].
End World.

(** The [return] statements of the handlers. *)
Inductive ExitPoint : Type :=
| NoFolder
| HostUnknown
| NoCloudName
| NoCredentials
| ResolutionFailed.

(** How a handler (or a block of one) ends: it falls through with a value,
    it executes a [return], or it throws (the handler's promise rejects). *)
Inductive Completion (A : Type) : Type :=
| Normal (a : A)
| Returned (p : ExitPoint)
| Raised (e : Thrown).
Arguments Normal {A} a.
Arguments Returned {A} p.
Arguments Raised {A} e.

Definition Handler (A : Type) : Type := World.t -> Completion A * World.t.

Definition ret {A : Type} (a : A) : Handler A := fun w => (Normal a, w).

Definition bind {A B : Type} (m : Handler A) (k : A -> Handler B) : Handler B :=
  fun w =>
    match m w with
    | (Normal a, w') => k a w'
    | (Returned p, w') => (Returned p, w')
    | (Raised e, w') => (Raised e, w')
    end.

Declare Scope handler_scope.
Delimit Scope handler_scope with handler.
Notation "x <- m ;; k" := (bind m (fun x => k))
  (at level 100, m at next level, right associativity) : handler_scope.
Notation "m ;; k" := (bind m (fun _ => k))
  (at level 100, right associativity) : handler_scope.
Open Scope handler_scope.

Definition return_ {A : Type} (p : ExitPoint) : Handler A := fun w => (Returned p, w).
Definition throw {A : Type} (e : Thrown) : Handler A := fun w => (Raised e, w).
Definition get : Handler World.t := fun w => (Normal w, w).

(** [if (b) { m }] *)
Definition when (b : bool) (m : Handler unit) : Handler unit :=
  if b then m else ret tt.

(** [try { m } catch (e) { h e }] *)
Definition try_catch {A : Type} (m : Handler A) (h : Thrown -> Handler A) : Handler A :=
  fun w =>
    match m w with
    | (Raised e, w') => h e w'
    | r => r
    end.

Definition emit (e : Event) : Handler unit :=
  fun w => (Normal tt,
            World.make (World.events w ++ [e]) (World.redirects w)
              (World.cloudinaryAssets w) (World.cloudinary w) (World.files w)
              (World.pending w)).

Definition console_log (args : list LogArg) : Handler unit := emit (ConsoleLog args).
Definition console_warn (args : list LogArg) : Handler unit := emit (ConsoleWarn args).
Definition console_error (args : list LogArg) : Handler unit := emit (ConsoleError args).

(** [utils.build.failPlugin(msg)] and [utils.build.failBuild(msg)], two
    functions of the host: the first fails the plugin, the second fails the
    build. In the handlers every call of them is the last statement before a
    [return], so a run ends at the call whether the host's function returns
    or throws. The model records the call and takes the [return]: an exit
    [Returned p] after a failure call says where the run ended, not that
    the handler's promise was fulfilled. *)
Definition failPlugin (msg : string) : Handler unit := emit (FailPlugin msg).
Definition failBuild (msg : string) : Handler unit := emit (FailBuild msg).

(** [configureCloudinary(cfg)]: the settings [getCloudinaryUrl] reads later. *)
Definition configureCloudinary (cfg : CloudinaryConfig.t) : Handler unit :=
  fun w => (Normal tt,
            World.make (World.events w) (World.redirects w)
              (World.cloudinaryAssets w) (Some cfg) (World.files w)
              (World.pending w)).

(** [_cloudinaryAssets.images = records] *)
Definition assign_images (records : list Asset.t) : Handler unit :=
  fun w => (Normal tt,
            World.make (World.events w ++ [AssignImages records]) (World.redirects w)
              (Assets.make records) (World.cloudinary w) (World.files w)
              (World.pending w)).

(** [netlifyConfig.redirects.unshift(r)] *)
Definition unshift (r : Redirect.t) (w : World.t) : World.t :=
  World.make (World.events w) (r :: World.redirects w)
    (World.cloudinaryAssets w) (World.cloudinary w) (World.files w)
    (World.pending w).

(** [fs.writeFileSync(page, html)] *)
Definition writeFileSync (page html : string) (w : World.t) : World.t :=
  World.make (World.events w) (World.redirects w)
    (World.cloudinaryAssets w) (World.cloudinary w) ((page, html) :: World.files w)
    (World.pending w).

(** [fs.readFileSync(page, 'utf-8')]; it throws when there is no such file. *)
Fixpoint readFileSync (files : list (string * string)) (page : string) : Result string :=
  match files with
  | [] => Throw (ErrorObject ("ENOENT: no such file or directory, open '" ^ page ^ "'"))
  | (p, content) :: rest =>
      if (p =? page)%string then Ok content else readFileSync rest page
  end.

(** A callback of [forEach] reaches its [await] and is left suspended. *)
Definition suspend (t : FetchTask.t) (w : World.t) : World.t :=
  World.make (World.events w) (World.redirects w)
    (World.cloudinaryAssets w) (World.cloudinary w) (World.files w)
    (World.pending w ++ [t]).

(** Run a synchronous effect for each element, in order ([forEach], or
    [map] over callbacks that do not suspend). *)
Definition for_each {A : Type} (l : list A) (f : A -> World.t -> World.t) : Handler unit :=
  fun w => (Normal tt, fold_left (fun w a => f a w) l w).

(** ** Promises and schedules

    Callbacks started together settle in an order the handler does not
    control. A schedule is a list of choices: each choice picks, among the
    callbacks still outstanding, the one that settles next. Every list of
    numbers is a schedule, and every order of settling comes from one. *)

Fixpoint remove_nth {A : Type} (n : nat) (l : list A) : list A :=
  match n, l with
  | _, [] => []
  | O, _ :: l' => l'
  | S n', x :: l' => x :: remove_nth n' l'
  end.

Fixpoint order_by {A : Type} (choices : list nat) (fuel : nat) (l : list A) : list A :=
  match fuel with
  | O => []
  | S fuel' =>
      let c := Nat.modulo (hd 0 choices) (length l) in
      match nth_error l c with
      | Some x => x :: order_by (tl choices) fuel' (remove_nth c l)
      | None => []
      end
  end.

Definition completion_order {A : Type} (choices : list nat) (l : list A) : list A :=
  order_by choices (length l) l.

(** A started async callback, seen from [Promise.all]: what it awaits
    rejects, or the callback resumes, acts on the world and resolves. *)
Definition Promise (A : Type) : Type := Result (A * (World.t -> World.t)).

(** The callbacks resume in the given order until one rejects. *)
Fixpoint settle {A : Type} (ps : list (Promise A)) (w : World.t) : option Thrown * World.t :=
  match ps with
  | [] => (None, w)
  | Ok (_, k) :: rest => settle rest (k w)
  | Throw e :: _ => (Some e, w)
  end.

(** The values of the fulfilled promises, in the order of the input. *)
Fixpoint fulfilled {A : Type} (ps : list (Promise A)) : list A :=
  match ps with
  | [] => []
  | Ok (a, _) :: rest => a :: fulfilled rest
  | Throw _ :: rest => fulfilled rest
  end.

(** [await Promise.all(ps)]: rejects with the first rejection to happen,
    and otherwise resolves to the values in the order of [ps], whatever the
    order of settling. What callbacks still outstanding at a rejection do
    later is not part of the awaiting handler's run. *)
Definition Promise_all {A : Type} (sched : list nat) (ps : list (Promise A)) : Handler (list A) :=
  fun w =>
    match settle (completion_order sched ps) w with
    | (Some e, w') => (Raised e, w')
    | (None, w') => (Normal (fulfilled ps), w')
    end.

(** ** What the handlers import *)

(** [./data/errors.js] *)
Module Messages.
Record t : Type := make {
  ERROR_SITE_NAME_REQUIRED : string;
  ERROR_NETLIFY_HOST_UNKNOWN : string;
  ERROR_NETLIFY_HOST_CLI_SUPPORT : string;
  ERROR_CLOUD_NAME_REQUIRED : string;
  ERROR_API_CREDENTIALS_REQUIRED : string;
  ERROR_INVALID_IMAGES_PATH : string
}.
End Messages.

(** [./data/cloudinary], [./lib/cloudinary.js], [./lib/util.js], [path] and
    [glob]. [getCloudinaryUrl] and [updateHtmlImagesToCloudinary] read the
    settings left by [configureCloudinary]; the functions that read the disk
    are given the files. *)
Module Library.
Record t : Type := make {
  PUBLIC_ASSET_PATH : string;
  path_join : string -> string -> string;
  getCloudinaryUrl : option CloudinaryConfig.t -> UrlOptions.t -> Result CloudinaryUrl.t;
  updateHtmlImagesToCloudinary :
    option CloudinaryConfig.t -> string -> RewriteOptions.t -> Result Rewritten.t;
  findAssetsByPath : list (string * string) -> string -> ImagesPath -> list string;
  glob_sync : list (string * string) -> string -> list string
}.
End Library.

(** ** The handlers *)

Section Handlers.

Variable msgs : Messages.t.
Variable lib : Library.t.

(** The pass-through rule of a media path (status 200). *)
Definition passthrough_rule (cldAssetPath mediaPath : string) : Redirect.t :=
  Redirect.make (cldAssetPath ^ "/*") (mediaPath ^ "/:splat") 200 true.

(** The general redirect rule of a media path (status 302). *)
Definition redirect_rule (mediaPath assetRedirectUrl : string) : Redirect.t :=
  Redirect.make (mediaPath ^ "/*") assetRedirectUrl 302 true.

(** The rule of an uploaded asset. *)
Definition asset_rule (asset : Asset.t) : Redirect.t :=
  Redirect.make (Asset.publishPath asset ^ "*") (Asset.cloudinaryUrl asset) 302 true.

(** The argument object of [getCloudinaryUrl] in the callback of
    [imagesFiles.map]. *)
Definition image_options (deliveryType : string) (folder : option string)
    (PUBLISH_DIR : string) (uploadPreset host : option string) (image : string)
  : UrlOptions.t :=
  let publishPath := Js.replace image PUBLISH_DIR in
  UrlOptions.make deliveryType folder publishPath (Some PUBLISH_DIR) uploadPreset host.

(** The callback of [imagesFiles.map] in [onBuild], started for [image]. *)
Definition resolve_image (cfg : option CloudinaryConfig.t)
    (deliveryType : string) (folder : option string) (PUBLISH_DIR : string)
    (uploadPreset host : option string) (image : string) : Promise Asset.t :=
  let publishPath := Js.replace image PUBLISH_DIR in
  match Library.getCloudinaryUrl lib cfg
          (image_options deliveryType folder PUBLISH_DIR uploadPreset host image) with
  | Ok cloudinary => Ok (Asset.make publishPath cloudinary, fun w => w)
  | Throw e => Throw e
  end.

(** The callback of [mediaPaths.forEach], run up to its [await]. *)
Definition start_fetch (cfg : option CloudinaryConfig.t)
    (folder uploadPreset host : option string) (mediaPath : string) : FetchTask.t :=
  let cldAssetPath := "/" ^ Library.path_join lib (Library.PUBLIC_ASSET_PATH lib) mediaPath in
  let cldAssetUrl := Js.tmpl host ^ cldAssetPath in
  FetchTask.make mediaPath cldAssetPath
    (Library.getCloudinaryUrl lib cfg
       (UrlOptions.make "fetch" folder (cldAssetUrl ^ "/:splat") None uploadPreset None)).

(** The rest of that callback, after the [await]: the two [unshift]s, or
    nothing when the awaited promise rejected. *)
Definition resume (t : FetchTask.t) (w : World.t) : World.t :=
  match FetchTask.awaited t with
  | Ok u =>
      let assetRedirectUrl := CloudinaryUrl.cloudinaryUrl u in
      unshift (redirect_rule (FetchTask.mediaPath t) assetRedirectUrl)
        (unshift (passthrough_rule (FetchTask.cldAssetPath t) (FetchTask.mediaPath t)) w)
  | Throw _ => w
  end.

(** The suspended callbacks resume, in the order of the schedule. *)
Definition drain (sched : list nat) (w : World.t) : World.t :=
  let w' := fold_left (fun w t => resume t w) (completion_order sched (World.pending w)) w in
  World.make (World.events w') (World.redirects w') (World.cloudinaryAssets w')
    (World.cloudinary w') (World.files w') [].

(** The callback of [CLOUDINARY_ASSET_DIRECTORIES.map] in fetch mode. *)
Definition fetch_directory (buildConfig : BuildConfig.t)
    (folder uploadPreset host : option string) (dir : AssetDirectory.t)
    (w : World.t) : World.t :=
  let mediaPaths :=
    JsValue.or (BuildConfig_get buildConfig (AssetDirectory.inputKey dir))
      (JString (AssetDirectory.path dir)) in
  let forEach (mediaPaths : list string) :=
    fold_left
      (fun w mediaPath =>
         suspend (start_fetch (World.cloudinary w) folder uploadPreset host mediaPath) w)
      mediaPaths w in
  match mediaPaths with
  | JArray l => forEach l
  | JString s => forEach [s]
  | _ => w
  end.

(** The handler from discovery on: the image files are found, resolved
    together and assigned to the cache, then the redirects of the delivery
    type are emitted. *)
Definition resolve_and_emit (sched : list nat) (PUBLISH_DIR : string)
    (buildConfig : BuildConfig.t) (deliveryType : string)
    (folder uploadPreset host : option string) (imagesPath : ImagesPath) : Handler unit :=
  w <- get ;;
  let imagesFiles := Library.findAssetsByPath lib (World.files w) PUBLISH_DIR imagesPath in
  when (Nat.eqb (length imagesFiles) 0)
    (console_warn
       [Text ("[Cloudinary] No image files found in " ^ ImagesPath_tmpl imagesPath)] ;;
     console_log
       [Text "[Cloudinary] Did you update your images path? You can set the imagesPath input in your Netlify config."]) ;;
  try_catch
    (records <-
       Promise_all sched
         (map (resolve_image (World.cloudinary w) deliveryType folder PUBLISH_DIR
                 uploadPreset host)
            imagesFiles) ;;
     assign_images records)
    (fun e =>
       console_error [Text "Error"; Value e] ;;
       match e with
       | ErrorObject message => failBuild message
       | OtherValue v => failBuild v
       end ;;
       return_ ResolutionFailed) ;;
  when (deliveryType =? "upload")%string
    (w <- get ;;
     for_each
       (flat_map (fun mediaType => Assets.get (World.cloudinaryAssets w) mediaType)
          (Assets.keys (World.cloudinaryAssets w)))
       (fun asset => unshift (asset_rule asset))) ;;
  when (deliveryType =? "fetch")%string
    (for_each CLOUDINARY_ASSET_DIRECTORIES
       (fetch_directory buildConfig folder uploadPreset host)) ;;
  console_log [Text "[Cloudinary] Done."].

Definition onBuild (sched : list nat) (env : Env.t) (PUBLISH_DIR : string)
    (buildConfig : option BuildConfig.t) : Handler unit :=
  let buildConfig :=
    match buildConfig with Some c => c | None => BuildConfig.empty end in
  console_log [Text "[Cloudinary] Creating redirects..."] ;;
  let isProduction := Js.eqs (Env.CONTEXT env) "production" in
  let host := if isProduction then Env.NETLIFY_HOST env else Env.DEPLOY_PRIME_URL env in
  console_log [Text ("[Cloudinary] Using host: " ^ Js.tmpl host)] ;;
  let cname := BuildConfig.cname buildConfig in
  let deliveryType :=
    match BuildConfig.deliveryType buildConfig with Some d => d | None => "fetch" end in
  let folder := Js.default (BuildConfig.folder buildConfig) (Env.SITE_NAME env) in
  let imagesPath :=
    Js.default (BuildConfig.imagesPath buildConfig)
      (option_map (fun d => PathString (AssetDirectory.path d))
         (find (fun d => (AssetDirectory.inputKey d =? "imagesPath")%string)
            CLOUDINARY_ASSET_DIRECTORIES)) in
  let privateCdn := BuildConfig.privateCdn buildConfig in
  let uploadPreset := BuildConfig.uploadPreset buildConfig in
  when (Js.falsy folder)
    (failPlugin (Messages.ERROR_SITE_NAME_REQUIRED msgs) ;;
     return_ NoFolder) ;;
  when (Js.falsy host && (deliveryType =? "fetch")%string)
    (console_warn [Text ("[Cloudinary] " ^ Messages.ERROR_NETLIFY_HOST_UNKNOWN msgs)] ;;
     console_log [Text ("[Cloudinary] " ^ Messages.ERROR_NETLIFY_HOST_CLI_SUPPORT msgs)] ;;
     return_ HostUnknown) ;;
  let cloudName :=
    Js.or (Env.CLOUDINARY_CLOUD_NAME env) (BuildConfig.cloudName buildConfig) in
  let apiKey := Env.CLOUDINARY_API_KEY env in
  let apiSecret := Env.CLOUDINARY_API_SECRET env in
  when (Js.falsy cloudName)
    (console_error [Text ("[Cloudinary] " ^ Messages.ERROR_CLOUD_NAME_REQUIRED msgs)] ;;
     failBuild (Messages.ERROR_CLOUD_NAME_REQUIRED msgs) ;;
     return_ NoCloudName) ;;
  when ((deliveryType =? "upload")%string && (Js.falsy apiKey || Js.falsy apiSecret))
    (console_error [Text ("[Cloudinary] " ^ Messages.ERROR_API_CREDENTIALS_REQUIRED msgs)] ;;
     failBuild (Messages.ERROR_API_CREDENTIALS_REQUIRED msgs) ;;
     return_ NoCredentials) ;;
  configureCloudinary (CloudinaryConfig.make cloudName apiKey apiSecret cname privateCdn) ;;
  match imagesPath with
  | None => throw (ErrorObject (Messages.ERROR_INVALID_IMAGES_PATH msgs))
  | Some imagesPath =>
      resolve_and_emit sched PUBLISH_DIR buildConfig deliveryType folder uploadPreset host
        imagesPath
  end.

(** What the callback of [pages.map] awaits: the file is read at once and
    handed to [updateHtmlImagesToCloudinary]. *)
Definition rewritten (cfg : option CloudinaryConfig.t) (files : list (string * string))
    (options : RewriteOptions.t) (page : string) : Result Rewritten.t :=
  match readFileSync files page with
  | Throw e => Throw e
  | Ok sourceHtml => Library.updateHtmlImagesToCloudinary lib cfg sourceHtml options
  end.

(** The callback of [pages.map] in [onPostBuild], started for [page]: the
    write happens when the rewrite resolves. *)
Definition rewrite_page (cfg : option CloudinaryConfig.t) (files : list (string * string))
    (options : RewriteOptions.t) (page : string) : Promise PageResult.t :=
  match rewritten cfg files options page with
  | Throw e => Throw e
  | Ok r =>
      Ok (PageResult.make page (Rewritten.errors r),
          writeFileSync page (Rewritten.html r))
  end.

(** [`${n}`] for a number. *)
Definition nat_tmpl (n : nat) : string :=
  DecimalString.NilZero.string_of_uint (Nat.to_uint n).

Definition onPostBuild (sched : list nat) (env : Env.t) (PUBLISH_DIR : string)
    (buildConfig : option BuildConfig.t) : Handler unit :=
  let buildConfig :=
    match buildConfig with Some c => c | None => BuildConfig.empty end in
  console_log [Text "[Cloudinary] Replacing on-page images with Cloudinary URLs..."] ;;
  let isProduction := Js.eqs (Env.CONTEXT env) "production" in
  let host := if isProduction then Env.NETLIFY_HOST env else Env.DEPLOY_PRIME_URL env in
  console_log [Text ("[Cloudinary] Using host: " ^ Js.tmpl host)] ;;
  let cname := BuildConfig.cname buildConfig in
  let deliveryType :=
    match BuildConfig.deliveryType buildConfig with Some d => d | None => "fetch" end in
  let folder := Js.default (BuildConfig.folder buildConfig) (Env.SITE_NAME env) in
  let privateCdn := BuildConfig.privateCdn buildConfig in
  let uploadPreset := BuildConfig.uploadPreset buildConfig in
  when (Js.falsy folder)
    (failPlugin (Messages.ERROR_SITE_NAME_REQUIRED msgs) ;;
     return_ NoFolder) ;;
  let cloudName :=
    Js.or (Env.CLOUDINARY_CLOUD_NAME env) (BuildConfig.cloudName buildConfig) in
  let apiKey := Env.CLOUDINARY_API_KEY env in
  let apiSecret := Env.CLOUDINARY_API_SECRET env in
  when (Js.falsy cloudName)
    (console_error [Text ("[Cloudinary] " ^ Messages.ERROR_CLOUD_NAME_REQUIRED msgs)] ;;
     failBuild (Messages.ERROR_CLOUD_NAME_REQUIRED msgs) ;;
     return_ NoCloudName) ;;
  when ((deliveryType =? "upload")%string && (Js.falsy apiKey || Js.falsy apiSecret))
    (console_error [Text ("[Cloudinary] " ^ Messages.ERROR_API_CREDENTIALS_REQUIRED msgs)] ;;
     failBuild (Messages.ERROR_API_CREDENTIALS_REQUIRED msgs) ;;
     return_ NoCredentials) ;;
  configureCloudinary (CloudinaryConfig.make cloudName apiKey apiSecret cname privateCdn) ;;
  w <- get ;;
  let pages := Library.glob_sync lib (World.files w) (PUBLISH_DIR ^ "/**/*.html") in
  results <-
    Promise_all sched
      (map (rewrite_page (World.cloudinary w) (World.files w)
              (RewriteOptions.make (World.cloudinaryAssets w) deliveryType uploadPreset
                 folder PUBLISH_DIR host))
         pages) ;;
  let errors := filter (fun r => Nat.ltb 0 (length (PageResult.errors r))) results in
  if Nat.ltb 0 (length errors) then
    console_log [Text ("[Cloudinary] Done with " ^ nat_tmpl (length errors) ^ " errors...")] ;;
    console_log [Json errors]
  else
    console_log [Text "[Cloudinary] Done."].

End Handlers.

(** ** The inputs as the handlers read them *)

Definition config_of (buildConfig : option BuildConfig.t) : BuildConfig.t :=
  match buildConfig with Some c => c | None => BuildConfig.empty end.

Definition host_of (env : Env.t) : option string :=
  if Js.eqs (Env.CONTEXT env) "production"
  then Env.NETLIFY_HOST env else Env.DEPLOY_PRIME_URL env.

Definition deliveryType_of (buildConfig : option BuildConfig.t) : string :=
  match BuildConfig.deliveryType (config_of buildConfig) with
  | Some d => d
  | None => "fetch"
  end.

Definition folder_of (env : Env.t) (buildConfig : option BuildConfig.t) : option string :=
  Js.default (BuildConfig.folder (config_of buildConfig)) (Env.SITE_NAME env).

Definition cloudName_of (env : Env.t) (buildConfig : option BuildConfig.t) : option string :=
  Js.or (Env.CLOUDINARY_CLOUD_NAME env) (BuildConfig.cloudName (config_of buildConfig)).

Definition imagesPath_of (buildConfig : option BuildConfig.t) : option ImagesPath :=
  Js.default (BuildConfig.imagesPath (config_of buildConfig))
    (option_map (fun d => PathString (AssetDirectory.path d))
       (find (fun d => (AssetDirectory.inputKey d =? "imagesPath")%string)
          CLOUDINARY_ASSET_DIRECTORIES)).

Definition credentials_missing (env : Env.t) : bool :=
  Js.falsy (Env.CLOUDINARY_API_KEY env) || Js.falsy (Env.CLOUDINARY_API_SECRET env).

(** The settings [onBuild] and [onPostBuild] hand to [configureCloudinary]. *)
Definition settings_of (env : Env.t) (buildConfig : option BuildConfig.t) : CloudinaryConfig.t :=
  CloudinaryConfig.make (cloudName_of env buildConfig)
    (Env.CLOUDINARY_API_KEY env) (Env.CLOUDINARY_API_SECRET env)
    (BuildConfig.cname (config_of buildConfig))
    (BuildConfig.privateCdn (config_of buildConfig)).

(** The precondition checks of [onBuild] as the specification words them:
    folder present, then (in fetch mode) host resolvable, then cloud name
    present, then (in upload mode) API key and secret present; the first
    check to fail decides the exit. *)
Definition first_failing_check (env : Env.t) (buildConfig : option BuildConfig.t)
  : option ExitPoint :=
  if Js.falsy (folder_of env buildConfig) then Some NoFolder
  else if (deliveryType_of buildConfig =? "fetch")%string && Js.falsy (host_of env)
  then Some HostUnknown
  else if Js.falsy (cloudName_of env buildConfig) then Some NoCloudName
  else if (deliveryType_of buildConfig =? "upload")%string && credentials_missing env
  then Some NoCredentials
  else None.

(** What [onBuild] logs before its checks. *)
Definition build_prelude (env : Env.t) : list Event :=
  [ ConsoleLog [Text "[Cloudinary] Creating redirects..."];
    ConsoleLog [Text ("[Cloudinary] Using host: " ^ Js.tmpl (host_of env))] ].

(** What [onPostBuild] logs before its checks. *)
Definition post_prelude (env : Env.t) : list Event :=
  [ ConsoleLog [Text "[Cloudinary] Replacing on-page images with Cloudinary URLs..."];
    ConsoleLog [Text ("[Cloudinary] Using host: " ^ Js.tmpl (host_of env))] ].

(** What [onPostBuild] logs at its end, for the documents with errors. *)
Definition summary (errors : list PageResult.t) : list Event :=
  if Nat.ltb 0 (length errors) then
    [ ConsoleLog [Text ("[Cloudinary] Done with " ^ nat_tmpl (length errors) ^ " errors...")];
      ConsoleLog [Json errors] ]
  else
    [ ConsoleLog [Text "[Cloudinary] Done."] ].

(** What each exit of the checks reports, and through which channel. *)
Definition reported (msgs : Messages.t) (p : ExitPoint) : list Event :=
  match p with
  | NoFolder => [ FailPlugin (Messages.ERROR_SITE_NAME_REQUIRED msgs) ]
  | HostUnknown =>
      [ ConsoleWarn [Text ("[Cloudinary] " ^ Messages.ERROR_NETLIFY_HOST_UNKNOWN msgs)];
        ConsoleLog [Text ("[Cloudinary] " ^ Messages.ERROR_NETLIFY_HOST_CLI_SUPPORT msgs)] ]
  | NoCloudName =>
      [ ConsoleError [Text ("[Cloudinary] " ^ Messages.ERROR_CLOUD_NAME_REQUIRED msgs)];
        FailBuild (Messages.ERROR_CLOUD_NAME_REQUIRED msgs) ]
  | NoCredentials =>
      [ ConsoleError [Text ("[Cloudinary] " ^ Messages.ERROR_API_CREDENTIALS_REQUIRED msgs)];
        FailBuild (Messages.ERROR_API_CREDENTIALS_REQUIRED msgs) ]
  | ResolutionFailed => []
  end.

(** A call on one of the failure channels of [utils.build]. *)
Definition is_failure (e : Event) : bool :=
  match e with
  | FailPlugin _ | FailBuild _ => true
  | _ => false
  end.

(** A call of [utils.build.failBuild]: the build fails. *)
Definition is_build_failure (e : Event) : bool :=
  match e with
  | FailBuild _ => true
  | _ => false
  end.

(** A call of [utils.build.failPlugin]: the plugin fails, the build goes on. *)
Definition is_plugin_failure (e : Event) : bool :=
  match e with
  | FailPlugin _ => true
  | _ => false
  end.

Definition is_assignment (e : Event) : bool :=
  match e with
  | AssignImages _ => true
  | _ => false
  end.

(** The world with more events in its log and nothing else changed. *)
Definition logged (es : list Event) (w : World.t) : World.t :=
  World.make (World.events w ++ es) (World.redirects w)
    (World.cloudinaryAssets w) (World.cloudinary w) (World.files w)
    (World.pending w).

(** The message [onBuild] hands to [failBuild] for a caught value: the
    message of an [Error], the value itself otherwise. *)
Definition thrown_text (e : Thrown) : string :=
  match e with
  | ErrorObject message => message
  | OtherValue v => v
  end.

(** The exit of a run stopped by a precondition check. *)
Definition blocked_at (c : Completion unit) : option ExitPoint :=
  match c with
  | Returned ResolutionFailed => None
  | Returned p => Some p
  | _ => None
  end.

(** The media paths [onBuild] iterates over in fetch mode, for the one
    entry of [CLOUDINARY_ASSET_DIRECTORIES]. *)
Definition media_paths (c : BuildConfig.t) : list string :=
  match JsValue.or (BuildConfig_get c "imagesPath") (JString "/images") with
  | JArray l => l
  | JString s => [s]
  | _ => []
  end.

Definition media_paths_of (buildConfig : option BuildConfig.t) : list string :=
  media_paths (config_of buildConfig).

(** The value of [imagesPath] after the destructuring in [onBuild]. *)
Definition imagesPath_value (buildConfig : option BuildConfig.t) : ImagesPath :=
  match BuildConfig.imagesPath (config_of buildConfig) with
  | Some p => p
  | None => PathString "/images"
  end.

(** The world once the checks have passed and the CDN is configured. *)
Definition configured (env : Env.t) (buildConfig : option BuildConfig.t) (prelude : list Event)
    (w : World.t) : World.t :=
  World.make (World.events w ++ prelude) (World.redirects w)
    (World.cloudinaryAssets w) (Some (settings_of env buildConfig)) (World.files w)
    (World.pending w).

(** The environment with other API credentials, or other hosts. *)
Definition with_credentials (env : Env.t) (apiKey apiSecret : option string) : Env.t :=
  Env.make (Env.CONTEXT env) (Env.NETLIFY_HOST env) (Env.DEPLOY_PRIME_URL env)
    (Env.SITE_NAME env) (Env.CLOUDINARY_CLOUD_NAME env) apiKey apiSecret.

Definition with_hosts (env : Env.t) (netlifyHost deployPrimeUrl : option string) : Env.t :=
  Env.make (Env.CONTEXT env) netlifyHost deployPrimeUrl
    (Env.SITE_NAME env) (Env.CLOUDINARY_CLOUD_NAME env)
    (Env.CLOUDINARY_API_KEY env) (Env.CLOUDINARY_API_SECRET env).

(** Two rules next to each other in a redirect list, [a] right before [b]. *)
Definition adjacent (a b : Redirect.t) (l : list Redirect.t) : Prop :=
  exists k, nth_error l k = Some a /\ nth_error l (S k) = Some b.

(** The image file [image] resolves to the asset record [a]. *)
Definition resolved_as (lib : Library.t) (cfg : option CloudinaryConfig.t)
    (deliveryType : string) (folder : option string) (PUBLISH_DIR : string)
    (uploadPreset host : option string) (image : string) (a : Asset.t) : Prop :=
  Library.getCloudinaryUrl lib cfg
    (image_options deliveryType folder PUBLISH_DIR uploadPreset host image)
  = Ok (Asset.cloudinary a)
  /\ Asset.publishPath a = Js.replace image PUBLISH_DIR.

(** What [onBuild] logs when discovery finds no file. *)
Definition discovery_log (imagesPath : ImagesPath) (imagesFiles : list string) : list Event :=
  if Nat.eqb (length imagesFiles) 0 then
    [ ConsoleWarn
        [Text ("[Cloudinary] No image files found in " ^ ImagesPath_tmpl imagesPath)];
      ConsoleLog
        [Text "[Cloudinary] Did you update your images path? You can set the imagesPath input in your Netlify config."] ]
  else [].

(** ** The path matcher *)

Definition patterns_of (path : ImagesPath) : list string :=
  match path with
  | PathString s => [s]
  | PathArray l => l
  end.

(** Modelled from the spec: [findAssetsByPath] of [./lib/util.js], the Path
    Matcher, which is not among the sources. A single pattern is normalised
    to a one-element sequence; each pattern is resolved against the base
    directory by the glob matcher, here [glob_match]; the matches are
    returned pattern by pattern, and no match is not a failure. *)
Definition findAssetsByPath_spec
    (glob_match : list (string * string) -> string -> string -> list string)
    (files : list (string * string)) (baseDir : string) (path : ImagesPath) : list string :=
  flat_map (glob_match files baseDir) (patterns_of path).

Definition with_findAssetsByPath (lib : Library.t)
    (f : list (string * string) -> string -> ImagesPath -> list string) : Library.t :=
  Library.make (Library.PUBLIC_ASSET_PATH lib) (Library.path_join lib)
    (Library.getCloudinaryUrl lib) (Library.updateHtmlImagesToCloudinary lib)
    f (Library.glob_sync lib).

(** ** A site to run the handlers on

    The runs below are on a site published in [/dist] with two images and
    two pages. *)

Module Example.

(** Modelled from the spec: the messages of [./data/errors.js], which is
    not among the sources; each names the value that is missing. *)
Definition messages : Messages.t :=
  Messages.make
    "A site name (folder) is required"
    "Cannot determine the Netlify host"
    "The Netlify CLI does not support this build context"
    "A Cloudinary cloud name is required"
    "A Cloudinary API key and secret are required for the upload delivery type"
    "Invalid images path".

(** [path.join(a, b)] on two segments with no [.], no [..] and no repeated
    separator beyond the one between them. *)
Definition path_join (a b : string) : string :=
  if String.prefix "/" b then a ^ b else a ^ "/" ^ b.

(** Modelled from the spec: [getCloudinaryUrl] of [./lib/cloudinary.js], the
    URL Resolver, which is not among the sources. In fetch mode the URL is
    built from the delivery type, the folder, the remote host and the path,
    with no network call; in upload mode the CDN returns a secure URL and a
    public identifier, or the upload fails (here: for the file
    [/images/broken.png], which the CDN turns down). *)
Definition getCloudinaryUrl (cfg : option CloudinaryConfig.t) (o : UrlOptions.t)
  : Result CloudinaryUrl.t :=
  let cloud :=
    match cfg with
    | Some c => Js.tmpl (CloudinaryConfig.cloudName c)
    | None => "undefined"
    end in
  let base := "https://res.cloudinary.com/" ^ cloud ^ "/image/" in
  let folder := Js.tmpl (UrlOptions.folder o) in
  if (UrlOptions.deliveryType o =? "upload")%string then
    if (UrlOptions.path o =? "/images/broken.png")%string
    then Throw (OtherValue "Unsupported file")
    else Ok (CloudinaryUrl.make (base ^ "upload/" ^ folder ^ UrlOptions.path o)
               (Some (folder ^ UrlOptions.path o)))
  else
    let remoteHost :=
      match UrlOptions.remoteHost o with Some h => h | None => "" end in
    Ok (CloudinaryUrl.make
          (base ^ UrlOptions.deliveryType o ^ "/" ^ folder ^ "/" ^ remoteHost ^ UrlOptions.path o)
          None).

(** Modelled from the spec: [updateHtmlImagesToCloudinary] of
    [./lib/cloudinary.js], the Rewrite Pass on one document, which is not
    among the sources. A reference that cannot be resolved (here: one to
    [missing.png]) is left as it is and reported in [errors]. *)
Definition updateHtmlImagesToCloudinary (cfg : option CloudinaryConfig.t)
    (sourceHtml : string) (options : RewriteOptions.t) : Result Rewritten.t :=
  match String.index 0 "missing.png" sourceHtml with
  | Some _ => Ok (Rewritten.make sourceHtml ["Could not resolve missing.png"])
  | None => Ok (Rewritten.make sourceHtml [])
  end.

(** The files under [baseDir ^ pattern ^ "/"]. *)
Definition glob_match (files : list (string * string)) (baseDir pattern : string)
  : list string :=
  filter (String.prefix (baseDir ^ pattern ^ "/")) (map fst files).

(** [true] when [s] ends in [suffix]. *)
Definition ends_with (suffix s : string) : bool :=
  (String.substring (String.length s - String.length suffix) (String.length suffix) s
   =? suffix)%string.

(** The [.html] files the pattern [`${dir}/**/*.html`] matches. *)
Definition glob_sync (files : list (string * string)) (pattern : string) : list string :=
  filter
    (fun f => String.prefix (Js.replace pattern "/**/*.html" ^ "/") f && ends_with ".html" f)
    (map fst files).

Definition library : Library.t :=
  Library.make "cld-assets" path_join getCloudinaryUrl updateHtmlImagesToCloudinary
    (findAssetsByPath_spec glob_match) glob_sync.

Definition files : list (string * string) :=
  [ ("/dist/images/a.png", "A");
    ("/dist/images/b.png", "B");
    ("/dist/index.html", "<img src=/images/a.png>");
    ("/dist/about.html", "<img src=/images/missing.png>") ].

(** The same site with an image the CDN turns down. *)
Definition files_broken : list (string * string) :=
  ("/dist/images/broken.png", "?") :: files.

(** A production deploy with the CDN account configured. *)
Definition env : Env.t :=
  Env.make (Some "production") (Some "https://example-site.netlify.app") None
    (Some "example-site") (Some "demo") (Some "key") (Some "secret").

(** A local build: no host is known. *)
Definition env_local : Env.t :=
  Env.make None None None (Some "example-site") (Some "demo") None None.

Definition upload_config : option BuildConfig.t :=
  Some (BuildConfig.make None None (Some "upload") None None None None None).

Definition world : World.t := World.initial [] files.

Definition world_broken : World.t := World.initial [] files_broken.

(** A site with no image at all. *)
Definition world_empty : World.t :=
  World.initial [] [ ("/dist/index.html", "<p>Hello</p>") ].

(** The redirect list after a fetch-mode build of the site with the default
    images path, once the callback left behind has resumed. *)
Definition fetch_redirects : list Redirect.t :=
  World.redirects (drain [] (snd (onBuild messages library [] env "/dist" None world))).

(** The two rules of the media path [/images]. *)
Definition passthrough : Redirect.t :=
  Redirect.make "/cld-assets/images/*" "/images/:splat" 200 true.

Definition redirect : Redirect.t :=
  Redirect.make "/images/*"
    "https://res.cloudinary.com/demo/image/fetch/example-site/https://example-site.netlify.app/cld-assets/images/:splat"
    302 true.

End Example.

(** ** More of what the handlers do *)

(** The rules a callback of [forEach] unshifts when it resumes, the one at
    the head first; none when the promise it awaits rejected. *)
Definition rules_of (t : FetchTask.t) : list Redirect.t :=
  match FetchTask.awaited t with
  | Ok u =>
      [ redirect_rule (FetchTask.mediaPath t) (CloudinaryUrl.cloudinaryUrl u);
        passthrough_rule (FetchTask.cldAssetPath t) (FetchTask.mediaPath t) ]
  | Throw _ => []
  end.

(** The [return] statement a handler ended at, if it ended at one. *)
Definition returned_at (c : Completion unit) : option ExitPoint :=
  match c with
  | Returned p => Some p
  | _ => None
  end.

(** The precondition checks of [onPostBuild], in the order of the handler:
    folder, cloud name, then (in upload mode) API key and secret. There is
    no check of the host. *)
Definition post_first_failing_check (env : Env.t) (buildConfig : option BuildConfig.t)
  : option ExitPoint :=
  if Js.falsy (folder_of env buildConfig) then Some NoFolder
  else if Js.falsy (cloudName_of env buildConfig) then Some NoCloudName
  else if (deliveryType_of buildConfig =? "upload")%string && credentials_missing env
  then Some NoCredentials
  else None.

(** The options [onPostBuild] hands to [updateHtmlImagesToCloudinary] when
    the asset cache is [assets]. *)
Definition rewrite_options (env : Env.t) (buildConfig : option BuildConfig.t)
    (PUBLISH_DIR : string) (assets : Assets.t) : RewriteOptions.t :=
  RewriteOptions.make assets (deliveryType_of buildConfig)
    (BuildConfig.uploadPreset (config_of buildConfig)) (folder_of env buildConfig)
    PUBLISH_DIR (host_of env).

(** The HTML documents [onPostBuild] finds. *)
Definition pages_of (lib : Library.t) (PUBLISH_DIR : string) (w : World.t) : list string :=
  Library.glob_sync lib (World.files w) (PUBLISH_DIR ^ "/**/*.html").

(** The world at the end of a run of [onBuild] that passed the checks and
    resolved the discovered files to [records]. *)
Definition completed_world (lib : Library.t) (env : Env.t) (PUBLISH_DIR : string)
    (buildConfig : option BuildConfig.t) (records : list Asset.t) (w : World.t) : World.t :=
  World.make
    (World.events w ++ build_prelude env
     ++ discovery_log (imagesPath_value buildConfig)
          (Library.findAssetsByPath lib (World.files w) PUBLISH_DIR
             (imagesPath_value buildConfig))
     ++ [AssignImages records; ConsoleLog [Text "[Cloudinary] Done."]])
    (if (deliveryType_of buildConfig =? "upload")%string
     then rev (map asset_rule records) ++ World.redirects w
     else World.redirects w)
    (Assets.make records) (Some (settings_of env buildConfig)) (World.files w)
    (if (deliveryType_of buildConfig =? "fetch")%string
     then World.pending w
          ++ map (start_fetch lib (Some (settings_of env buildConfig))
                    (folder_of env buildConfig)
                    (BuildConfig.uploadPreset (config_of buildConfig)) (host_of env))
               (media_paths_of buildConfig)
     else World.pending w).

(** The world at the end of a run of [onBuild] that passed the checks and
    caught [e] from the resolution. *)
Definition failed_world (env : Env.t) (buildConfig : option BuildConfig.t) (e : Thrown)
    (w : World.t) : World.t :=
  World.make
    (World.events w ++ build_prelude env
     ++ [ConsoleError [Text "Error"; Value e]; FailBuild (thrown_text e)])
    (World.redirects w) (World.cloudinaryAssets w) (Some (settings_of env buildConfig))
    (World.files w) (World.pending w).

(** More sites and configurations to run the handlers on. *)
Module Cases.

(** A production deploy with no site name in the environment. *)
Definition env_unnamed : Env.t :=
  Env.make (Some "production") (Some "https://example-site.netlify.app") None
    None (Some "demo") (Some "key") (Some "secret").

(** A delivery type the handlers do not know. *)
Definition capital_upload : option BuildConfig.t :=
  Some (BuildConfig.make None None (Some "Upload") None None None None None).

(** A folder set to the empty string. *)
Definition empty_folder : option BuildConfig.t :=
  Some (BuildConfig.make None None None (Some "") None None None None).

(** An images path set to the empty string. *)
Definition empty_images_path : option BuildConfig.t :=
  Some (BuildConfig.make None None None None (Some (PathString "")) None None None).

(** A library whose page rewrite fails on the page about the site. *)
Definition updateHtmlImagesToCloudinary (cfg : option CloudinaryConfig.t)
    (sourceHtml : string) (options : RewriteOptions.t) : Result Rewritten.t :=
  match String.index 0 "missing.png" sourceHtml with
  | Some _ => Throw (ErrorObject "Cannot rewrite the document")
  | None => Ok (Rewritten.make sourceHtml [])
  end.

Definition failing_library : Library.t :=
  Library.make "cld-assets" Example.path_join Example.getCloudinaryUrl
    updateHtmlImagesToCloudinary (findAssetsByPath_spec Example.glob_match)
    Example.glob_sync.

(** A site whose image lies outside the publish directory's name. *)
Definition relative_library : Library.t :=
  Library.make "cld-assets" Example.path_join Example.getCloudinaryUrl
    Example.updateHtmlImagesToCloudinary
    (fun _ _ _ => ["images/a.png"; "/www/dist/images/b.png"]) Example.glob_sync.

End Cases.

(** ** Schedules and promises *)

Example replace_strips_publish_dir :
  Js.replace "/dist/images/a.png" "/dist" = "/images/a.png".
Proof. reflexivity. Qed.

Example replace_removes_first_occurrence :
  Js.replace "/site/dist/a.png" "/dist" = "/site/a.png".
Proof. reflexivity. Qed.

Example completion_in_order : completion_order [] ["a"; "b"; "c"] = ["a"; "b"; "c"].
Proof. reflexivity. Qed.

Example completion_last_first :
  completion_order [2; 1] ["a"; "b"; "c"] = ["c"; "b"; "a"].
Proof. reflexivity. Qed.

Example images_path_defaults :
  imagesPath_of None = Some (PathString "/images")
  /\ media_paths_of None = ["/images"]
  /\ media_paths_of
       (Some (BuildConfig.make None None None None (Some (PathArray ["/img"; "/media"]))
                None None None))
     = ["/img"; "/media"].
Proof. repeat split. Qed.

Section Schedules.

Context {A : Type}.

Lemma remove_nth_perm (c : nat) (l : list A) (x : A) :
  nth_error l c = Some x -> Permutation (x :: remove_nth c l) l.
Proof.
  revert l; induction c as [|c IH]; intros [|y l] H; simpl in *; try discriminate.
  - injection H as ->. reflexivity.
  - etransitivity; [apply perm_swap|]. constructor. now apply IH.
Qed.

Lemma remove_nth_length (c : nat) (l : list A) (x : A) :
  nth_error l c = Some x -> S (length (remove_nth c l)) = length l.
Proof.
  revert l; induction c as [|c IH]; intros [|y l] H; simpl in *; try discriminate.
  - reflexivity.
  - f_equal. now apply IH.
Qed.

Lemma order_by_perm (fuel : nat) :
  forall (choices : list nat) (l : list A),
    length l = fuel -> Permutation (order_by choices fuel l) l.
Proof.
  induction fuel as [|fuel IH]; intros choices l Hlen; simpl.
  - destruct l; [constructor | discriminate].
  - destruct (nth_error l (hd 0 choices mod length l)) as [x|] eqn:Hx.
    + etransitivity; [|apply (remove_nth_perm _ _ _ Hx)].
      constructor. apply IH.
      pose proof (remove_nth_length _ _ _ Hx). lia.
    + exfalso. apply nth_error_None in Hx.
      assert (hd 0 choices mod length l < length l)
        by (apply Nat.mod_upper_bound; lia).
      lia.
Qed.

(** Whatever the schedule, every callback settles once. *)
Lemma completion_order_perm (choices : list nat) (l : list A) :
  Permutation (completion_order choices l) l.
Proof. now apply order_by_perm. Qed.

Lemma completion_order_in (choices : list nat) (l : list A) (x : A) :
  In x (completion_order choices l) <-> In x l.
Proof.
  split; apply Permutation_in; [|symmetry]; apply completion_order_perm.
Qed.

End Schedules.

Section Settling.

Context {A : Type}.

Lemma settle_fulfilled (ps : list (Promise A)) :
  forall w, (forall e, ~ In (Throw e) ps) -> fst (settle ps w) = None.
Proof.
  induction ps as [|[[a k]|e] ps IH]; intros w H; simpl.
  - reflexivity.
  - apply IH. intros e He. apply (H e). now right.
  - exfalso. apply (H e). now left.
Qed.

Lemma settle_rejected (ps : list (Promise A)) :
  forall w e0, In (Throw e0) ps ->
    exists e, In (Throw e) ps /\ fst (settle ps w) = Some e.
Proof.
  induction ps as [|[[a k]|e] ps IH]; intros w e0 H; simpl in *.
  - contradiction.
  - destruct H as [H|H]; [discriminate|].
    destruct (IH (k w) e0 H) as (e & He & Hs). exists e. split; [now right|exact Hs].
  - exists e. split; [now left|reflexivity].
Qed.

Lemma settle_pure (ps : list (Promise A)) :
  forall w, (forall a k, In (Ok (a, k)) ps -> forall w', k w' = w') ->
    snd (settle ps w) = w.
Proof.
  induction ps as [|[[a k]|e] ps IH]; intros w H; simpl.
  - reflexivity.
  - rewrite (H a k (or_introl eq_refl)). apply IH.
    intros a' k' Hin. apply (H a' k'). now right.
  - reflexivity.
Qed.

(** When nothing rejects, the callbacks' effects all happen, in the order
    of settling. *)
Lemma settle_effects (ps : list (Promise A)) :
  forall w, (forall e, ~ In (Throw e) ps) ->
    snd (settle ps w)
    = fold_left (fun w p => match p with Ok (_, k) => k w | Throw _ => w end) ps w.
Proof.
  induction ps as [|[[a k]|e] ps IH]; intros w H; simpl.
  - reflexivity.
  - apply IH. intros e He. apply (H e). now right.
  - exfalso. apply (H e). now left.
Qed.

End Settling.

Section Resolution.

Variable lib : Library.t.
Variables (cfg : option CloudinaryConfig.t) (deliveryType : string)
  (folder : option string) (PUBLISH_DIR : string) (uploadPreset host : option string).

Let resolve := resolve_image lib cfg deliveryType folder PUBLISH_DIR uploadPreset host.
Let resolved := resolved_as lib cfg deliveryType folder PUBLISH_DIR uploadPreset host.
Let options := image_options deliveryType folder PUBLISH_DIR uploadPreset host.

(** The callback does nothing to the world after its [await]. *)
Lemma resolve_pure (image : string) (a : Asset.t) (k : World.t -> World.t) :
  resolve image = Ok (a, k) -> forall w, k w = w.
Proof.
  subst resolve. unfold resolve_image.
  destruct (Library.getCloudinaryUrl lib cfg _); [|discriminate].
  intros H w. now injection H as _ <-.
Qed.

Lemma resolve_throw_in (imagesFiles : list string) (e : Thrown) :
  In (Throw e) (map resolve imagesFiles) <->
  exists image, In image imagesFiles /\ Library.getCloudinaryUrl lib cfg (options image) = Throw e.
Proof.
  rewrite in_map_iff. subst resolve options. unfold resolve_image.
  split; intros (image & H1 & H2); exists image.
  - split; [exact H2|].
    destruct (Library.getCloudinaryUrl lib cfg _); [discriminate|congruence].
  - rewrite H2. now split.
Qed.

Lemma resolve_fulfilled (imagesFiles : list string) (records : list Asset.t) :
  Forall2 resolved imagesFiles records ->
  fulfilled (map resolve imagesFiles) = records
  /\ forall e, ~ In (Throw e) (map resolve imagesFiles).
Proof.
  subst resolve resolved. unfold resolved_as, resolve_image.
  induction 1 as [|image a files records [Hu Hp] _ [IH1 IH2]]; simpl.
  - split; [reflexivity|tauto].
  - fold (image_options deliveryType folder PUBLISH_DIR uploadPreset host image).
    rewrite Hu. split.
    + rewrite IH1, <- Hp. now destruct a.
    + intros e [He|He]; [discriminate|]. exact (IH2 e He).
Qed.

(** Either every file resolves, or the resolution of some file throws. *)
Lemma resolve_dichotomy (imagesFiles : list string) :
  (exists records, Forall2 resolved imagesFiles records)
  \/ (exists image e, In image imagesFiles
                     /\ Library.getCloudinaryUrl lib cfg (options image) = Throw e).
Proof.
  subst resolved options. unfold resolved_as.
  induction imagesFiles as [|image files [[records IH]|(image' & e & Hin & He)]].
  - left. exists []. constructor.
  - destruct (Library.getCloudinaryUrl lib cfg
                (image_options deliveryType folder PUBLISH_DIR uploadPreset host image))
      as [c|e] eqn:Hc.
    + left. exists (Asset.make (Js.replace image PUBLISH_DIR) c :: records).
      constructor; [now split|exact IH].
    + right. exists image, e. split; [now left|exact Hc].
  - right. exists image', e. split; [now right|exact He].
Qed.

Lemma resolve_all_fulfilled (sched : list nat) (imagesFiles : list string)
    (records : list Asset.t) (w : World.t) :
  Forall2 resolved imagesFiles records ->
  Promise_all sched (map resolve imagesFiles) w = (Normal records, w).
Proof.
  intros H. destruct (resolve_fulfilled _ _ H) as [Hv Hn].
  unfold Promise_all.
  destruct (settle (completion_order sched (map resolve imagesFiles)) w) as [o w'] eqn:Hs.
  assert (Ho : fst (settle (completion_order sched (map resolve imagesFiles)) w) = None).
  { apply settle_fulfilled. intros e He. apply completion_order_in in He. exact (Hn e He). }
  assert (Hw : snd (settle (completion_order sched (map resolve imagesFiles)) w) = w).
  { apply settle_pure. intros a k Hin. apply completion_order_in in Hin.
    apply in_map_iff in Hin as (image & Hin & _). exact (resolve_pure _ _ _ Hin). }
  rewrite Hs in Ho, Hw. simpl in Ho, Hw. subst o w'. now rewrite Hv.
Qed.

Lemma resolve_all_rejected (sched : list nat) (imagesFiles : list string)
    (image0 : string) (e0 : Thrown) (w : World.t) :
  In image0 imagesFiles ->
  Library.getCloudinaryUrl lib cfg (options image0) = Throw e0 ->
  exists image e, In image imagesFiles
    /\ Library.getCloudinaryUrl lib cfg (options image) = Throw e
    /\ Promise_all sched (map resolve imagesFiles) w = (Raised e, w).
Proof.
  intros Hin H0.
  assert (Hthrow : In (Throw e0) (completion_order sched (map resolve imagesFiles))).
  { apply completion_order_in, resolve_throw_in. now exists image0. }
  destruct (settle_rejected _ w e0 Hthrow) as (e & He & Hs).
  apply completion_order_in, resolve_throw_in in He as (image & Hi & Hu).
  exists image, e. split; [exact Hi|]. split; [exact Hu|].
  unfold Promise_all.
  destruct (settle (completion_order sched (map resolve imagesFiles)) w) as [o w'] eqn:Hsw.
  assert (Hw : snd (settle (completion_order sched (map resolve imagesFiles)) w) = w).
  { apply settle_pure. intros a k Hk. apply completion_order_in in Hk.
    apply in_map_iff in Hk as (image' & Hk & _). exact (resolve_pure _ _ _ Hk). }
  rewrite Hsw in Hw. simpl in Hs, Hw. now subst o w'.
Qed.

End Resolution.

(** ** Runs of the build handler *)

Ltac fold_inputs env bc :=
  cbv zeta;
  change (match bc with Some c => c | None => BuildConfig.empty end) with (config_of bc);
  change (if Js.eqs (Env.CONTEXT env) "production"
          then Env.NETLIFY_HOST env else Env.DEPLOY_PRIME_URL env) with (host_of env);
  change (Js.default (BuildConfig.folder (config_of bc)) (Env.SITE_NAME env))
    with (folder_of env bc);
  change (match BuildConfig.deliveryType (config_of bc) with Some d => d | None => "fetch" end)
    with (deliveryType_of bc);
  change (Js.or (Env.CLOUDINARY_CLOUD_NAME env) (BuildConfig.cloudName (config_of bc)))
    with (cloudName_of env bc);
  change (Js.falsy (Env.CLOUDINARY_API_KEY env) || Js.falsy (Env.CLOUDINARY_API_SECRET env))
    with (credentials_missing env).

Ltac run_handler :=
  unfold bind, when, console_log, console_warn, console_error, failPlugin, failBuild,
    configureCloudinary, emit, return_, ret, logged, configured;
  simpl; rewrite <- ?app_assoc; simpl.

Section Runs.

Variable msgs : Messages.t.
Variable lib : Library.t.

Lemma imagesPath_of_value (bc : option BuildConfig.t) :
  imagesPath_of bc = Some (imagesPath_value bc).
Proof.
  unfold imagesPath_of, imagesPath_value.
  now destruct (BuildConfig.imagesPath (config_of bc)).
Qed.

(** A run stopped by a precondition check logs the prelude and the report
    of the check, and changes nothing else. *)
Lemma onBuild_blocked sched env dir bc w p :
  first_failing_check env bc = Some p ->
  onBuild msgs lib sched env dir bc w
  = (Returned p, logged (build_prelude env ++ reported msgs p) w).
Proof.
  unfold first_failing_check, onBuild, build_prelude.
  fold_inputs env bc. intros H.
  destruct (Js.falsy (folder_of env bc)).
  { injection H as <-. now run_handler. }
  destruct (String.eqb (deliveryType_of bc) "fetch");
    destruct (Js.falsy (host_of env)); simpl in H;
    try (injection H as <-; now run_handler);
    (destruct (Js.falsy (cloudName_of env bc));
     [injection H as <-; now run_handler|]);
    (destruct (String.eqb (deliveryType_of bc) "upload" && credentials_missing env);
     [injection H as <-; now run_handler|discriminate]).
Qed.

(** A run that passes the checks goes on to discovery with the CDN
    configured. *)
Lemma onBuild_passes sched env dir bc w :
  first_failing_check env bc = None ->
  onBuild msgs lib sched env dir bc w
  = resolve_and_emit lib sched dir (config_of bc) (deliveryType_of bc) (folder_of env bc)
      (BuildConfig.uploadPreset (config_of bc)) (host_of env) (imagesPath_value bc)
      (configured env bc (build_prelude env) w).
Proof.
  unfold first_failing_check, onBuild, build_prelude.
  fold_inputs env bc. intros H.
  fold (imagesPath_of bc). rewrite imagesPath_of_value.
  destruct (Js.falsy (folder_of env bc)); [discriminate|].
  destruct (Js.falsy (cloudName_of env bc)) eqn:Hc.
  { destruct (String.eqb (deliveryType_of bc) "fetch" && Js.falsy (host_of env)); discriminate. }
  destruct (String.eqb (deliveryType_of bc) "upload" && credentials_missing env).
  { destruct (String.eqb (deliveryType_of bc) "fetch" && Js.falsy (host_of env)); discriminate. }
  destruct (String.eqb (deliveryType_of bc) "fetch");
    destruct (Js.falsy (host_of env)); try discriminate;
    unfold bind, when, console_log, failPlugin, configureCloudinary, emit, ret, configured,
      settings_of; simpl; rewrite <- ?app_assoc; reflexivity.
Qed.

Lemma unshift_all (records : list Asset.t) :
  forall w,
    fold_left (fun w asset => unshift (asset_rule asset) w) records w
    = World.make (World.events w) (rev (map asset_rule records) ++ World.redirects w)
        (World.cloudinaryAssets w) (World.cloudinary w) (World.files w) (World.pending w).
Proof.
  induction records as [|a records IH]; intros w; simpl.
  - now destruct w.
  - rewrite IH. unfold unshift; simpl. now rewrite <- app_assoc.
Qed.

Lemma suspend_all (folder uploadPreset host : option string) (mediaPaths : list string) :
  forall w,
    fold_left
      (fun w mediaPath =>
         suspend (start_fetch lib (World.cloudinary w) folder uploadPreset host mediaPath) w)
      mediaPaths w
    = World.make (World.events w) (World.redirects w) (World.cloudinaryAssets w)
        (World.cloudinary w) (World.files w)
        (World.pending w
         ++ map (start_fetch lib (World.cloudinary w) folder uploadPreset host) mediaPaths).
Proof.
  induction mediaPaths as [|m mediaPaths IH]; intros w; simpl.
  - rewrite app_nil_r. now destruct w.
  - rewrite IH. unfold suspend; simpl. now rewrite <- app_assoc.
Qed.

(** In fetch mode one callback per media path is left suspended. *)
Lemma fetch_directory_images (c : BuildConfig.t) (folder uploadPreset host : option string)
    (w : World.t) :
  fetch_directory lib c folder uploadPreset host
    (AssetDirectory.make "images" "imagesPath" "/images") w
  = World.make (World.events w) (World.redirects w) (World.cloudinaryAssets w)
      (World.cloudinary w) (World.files w)
      (World.pending w
       ++ map (start_fetch lib (World.cloudinary w) folder uploadPreset host) (media_paths c)).
Proof.
  unfold fetch_directory, media_paths.
  cbv zeta. simpl AssetDirectory.inputKey. simpl AssetDirectory.path.
  destruct (JsValue.or (BuildConfig_get c "imagesPath") (JString "/images")) as [|s|l|b].
  - rewrite app_nil_r. now destruct w.
  - reflexivity.
  - apply suspend_all.
  - rewrite app_nil_r. now destruct w.
Qed.

(** The end of a run in which every image file resolved. *)
Lemma resolve_and_emit_resolved sched dir c deliveryType folder uploadPreset host imagesPath
    w records :
  Forall2 (resolved_as lib (World.cloudinary w) deliveryType folder dir uploadPreset host)
    (Library.findAssetsByPath lib (World.files w) dir imagesPath) records ->
  resolve_and_emit lib sched dir c deliveryType folder uploadPreset host imagesPath w
  = (Normal tt,
     World.make
       (World.events w
        ++ discovery_log imagesPath (Library.findAssetsByPath lib (World.files w) dir imagesPath)
        ++ [AssignImages records; ConsoleLog [Text "[Cloudinary] Done."]])
       (if (deliveryType =? "upload")%string
        then rev (map asset_rule records) ++ World.redirects w
        else World.redirects w)
       (Assets.make records) (World.cloudinary w) (World.files w)
       (if (deliveryType =? "fetch")%string
        then World.pending w
             ++ map (start_fetch lib (World.cloudinary w) folder uploadPreset host)
                  (media_paths c)
        else World.pending w)).
Proof.
  intros H. unfold resolve_and_emit, discovery_log.
  unfold bind at 1. unfold get at 1. cbv zeta.
  set (imagesFiles := Library.findAssetsByPath lib (World.files w) dir imagesPath) in *.
  destruct (Nat.eqb (length imagesFiles) 0);
    unfold bind, when, try_catch, get, console_warn, console_log, emit, ret;
    simpl;
    rewrite (resolve_all_fulfilled lib _ _ _ _ _ _ sched _ _ _ H);
    unfold assign_images, for_each; simpl;
    destruct (String.eqb deliveryType "upload"), (String.eqb deliveryType "fetch");
    simpl; rewrite ?app_nil_r, ?unshift_all, ?fetch_directory_images; simpl;
    rewrite <- ?app_assoc; reflexivity.
Qed.

(** The end of a run in which the resolution of some image file throws:
    the value caught is one that a resolution threw, it is logged and handed
    to [failBuild], and nothing else changes. *)
Lemma resolve_and_emit_rejected sched dir c deliveryType folder uploadPreset host imagesPath
    w image0 e0 :
  In image0 (Library.findAssetsByPath lib (World.files w) dir imagesPath) ->
  Library.getCloudinaryUrl lib (World.cloudinary w)
    (image_options deliveryType folder dir uploadPreset host image0) = Throw e0 ->
  exists image e,
    In image (Library.findAssetsByPath lib (World.files w) dir imagesPath)
    /\ Library.getCloudinaryUrl lib (World.cloudinary w)
         (image_options deliveryType folder dir uploadPreset host image) = Throw e
    /\ resolve_and_emit lib sched dir c deliveryType folder uploadPreset host imagesPath w
       = (Returned ResolutionFailed,
          logged [ConsoleError [Text "Error"; Value e]; FailBuild (thrown_text e)] w).
Proof.
  intros Hin H0. unfold resolve_and_emit.
  unfold bind at 1. unfold get at 1. cbv zeta.
  set (imagesFiles := Library.findAssetsByPath lib (World.files w) dir imagesPath) in *.
  destruct (resolve_all_rejected lib _ _ _ _ _ _ sched _ _ _ w Hin H0)
    as (image & e & Hi & Hu & Hp).
  exists image, e. split; [exact Hi|]. split; [exact Hu|].
  assert (Hne : Nat.eqb (length imagesFiles) 0 = false)
    by (destruct imagesFiles; [contradiction|reflexivity]).
  rewrite Hne.
  unfold bind, when, try_catch, ret. rewrite Hp.
  destruct e; unfold console_error, failBuild, emit, return_, logged; simpl;
    rewrite <- app_assoc; reflexivity.
Qed.

(** From discovery on, a run either reaches its end or stops at the failed
    resolution: it never throws. *)
Lemma resolve_and_emit_completion sched dir c deliveryType folder uploadPreset host imagesPath w :
  fst (resolve_and_emit lib sched dir c deliveryType folder uploadPreset host imagesPath w)
  = Normal tt
  \/ fst (resolve_and_emit lib sched dir c deliveryType folder uploadPreset host imagesPath w)
     = Returned ResolutionFailed.
Proof.
  destruct (resolve_dichotomy lib (World.cloudinary w) deliveryType folder dir uploadPreset host
              (Library.findAssetsByPath lib (World.files w) dir imagesPath))
    as [[records H]|(image & e & Hin & He)].
  - left. now rewrite (resolve_and_emit_resolved _ _ _ _ _ _ _ _ _ _ H).
  - right.
    destruct (resolve_and_emit_rejected sched dir c _ _ _ _ _ _ _ _ Hin He)
      as (image' & e' & _ & _ & Hr).
    now rewrite Hr.
Qed.

(** The check that stops a run is the first failing one. *)
Lemma onBuild_exit sched env dir bc w :
  blocked_at (fst (onBuild msgs lib sched env dir bc w)) = first_failing_check env bc.
Proof.
  destruct (first_failing_check env bc) as [p|] eqn:Hc.
  - rewrite (onBuild_blocked _ _ _ _ _ _ Hc). simpl.
    destruct p; try reflexivity.
    unfold first_failing_check in Hc.
    repeat match type of Hc with
           | (if ?b then _ else _) = _ => destruct b; try discriminate
           end.
  - rewrite (onBuild_passes _ _ _ _ _ Hc).
    destruct (resolve_and_emit_completion sched dir (config_of bc) (deliveryType_of bc)
                (folder_of env bc) (BuildConfig.uploadPreset (config_of bc)) (host_of env)
                (imagesPath_value bc) (configured env bc (build_prelude env) w)) as [H|H];
      now rewrite H.
Qed.

End Runs.

(** ** The precondition checks *)

(** C5, as the handler has it. The precondition checks of [onBuild] run
    in the order folder, then host (in fetch mode), then cloud name, then API
    credentials (in upload mode), and the first one to fail decides the
    exit: the run stopped by a check is stopped by [first_failing_check], it
    has logged the prelude and the report of that check and changed nothing
    else. A missing folder is reported by [failPlugin] with
    [ERROR_SITE_NAME_REQUIRED], which fails the plugin: no [failBuild] call
    is made. A missing cloud name is reported by [failBuild] with
    [ERROR_CLOUD_NAME_REQUIRED], and so are missing credentials with
    [ERROR_API_CREDENTIALS_REQUIRED]; an unknown host in fetch mode is
    logged only. *)
Theorem onBuild_first_failing_check_decides msgs lib sched env dir bc w :
  blocked_at (fst (onBuild msgs lib sched env dir bc w)) = first_failing_check env bc
  /\ match first_failing_check env bc with
     | Some p =>
         snd (onBuild msgs lib sched env dir bc w)
         = logged (build_prelude env ++ reported msgs p) w
     | None => True
     end
  /\ reported msgs NoFolder = [FailPlugin (Messages.ERROR_SITE_NAME_REQUIRED msgs)]
  /\ filter is_failure (reported msgs HostUnknown) = []
  /\ filter is_failure (reported msgs NoCloudName)
     = [FailBuild (Messages.ERROR_CLOUD_NAME_REQUIRED msgs)]
  /\ filter is_failure (reported msgs NoCredentials)
     = [FailBuild (Messages.ERROR_API_CREDENTIALS_REQUIRED msgs)]
  /\ filter is_build_failure (build_prelude env ++ reported msgs NoFolder) = []
  /\ filter is_plugin_failure (build_prelude env ++ reported msgs NoCloudName) = []
  /\ filter is_plugin_failure (build_prelude env ++ reported msgs NoCredentials) = [].
Proof.
  split; [apply onBuild_exit|]. split; [|repeat split].
  destruct (first_failing_check env bc) as [p|] eqn:Hc; [|exact I].
  now rewrite (onBuild_blocked msgs lib sched env dir bc w p Hc).
Qed.

(** C5 as stated fails where the folder is missing: with no folder in the
    build configuration and no site name in the environment the run calls
    [failPlugin] and never [failBuild], so the build is not failed. *)
Lemma missing_folder_is_not_a_build_failure :
  Js.falsy (folder_of Cases.env_unnamed None) = true
  /\ World.events
       (snd (onBuild Example.messages Example.library [] Cases.env_unnamed "/dist" None
               Example.world))
     = [ ConsoleLog [Text "[Cloudinary] Creating redirects..."];
         ConsoleLog [Text "[Cloudinary] Using host: https://example-site.netlify.app"];
         FailPlugin "A site name (folder) is required" ]
  /\ ~ (exists msg,
          In (FailBuild msg)
            (World.events
               (snd (onBuild Example.messages Example.library [] Cases.env_unnamed "/dist"
                       None Example.world)))).
Proof.
  assert (H : World.events
                (snd (onBuild Example.messages Example.library [] Cases.env_unnamed "/dist"
                        None Example.world))
              = [ ConsoleLog [Text "[Cloudinary] Creating redirects..."];
                  ConsoleLog
                    [Text "[Cloudinary] Using host: https://example-site.netlify.app"];
                  FailPlugin "A site name (folder) is required" ])
    by (vm_compute; reflexivity).
  split; [reflexivity|]. split; [exact H|].
  rewrite H. intros (msg & [Hin|[Hin|[Hin|[]]]]); discriminate.
Qed.

(** C6. When the folder is known, the host is unknown and the delivery type
    is fetch, [onBuild] logs a warning and returns: no failure channel is
    called, no asset is resolved (the cache is untouched and the run does
    not depend on the CDN library), and no redirect rule is emitted, now or
    by a callback left behind. *)
Theorem onBuild_host_unknown_skips msgs lib sched env dir bc w :
  Js.falsy (folder_of env bc) = false ->
  Js.falsy (host_of env) = true ->
  deliveryType_of bc = "fetch" ->
  let w' := snd (onBuild msgs lib sched env dir bc w) in
  fst (onBuild msgs lib sched env dir bc w) = Returned HostUnknown
  /\ World.events w'
     = World.events w ++ build_prelude env
       ++ [ ConsoleWarn [Text ("[Cloudinary] " ^ Messages.ERROR_NETLIFY_HOST_UNKNOWN msgs)];
            ConsoleLog [Text ("[Cloudinary] " ^ Messages.ERROR_NETLIFY_HOST_CLI_SUPPORT msgs)] ]
  /\ filter is_failure (World.events w') = filter is_failure (World.events w)
  /\ filter is_assignment (World.events w') = filter is_assignment (World.events w)
  /\ World.cloudinaryAssets w' = World.cloudinaryAssets w
  /\ World.redirects w' = World.redirects w
  /\ World.pending w' = World.pending w
  /\ forall lib', onBuild msgs lib' sched env dir bc w = onBuild msgs lib sched env dir bc w.
Proof.
  intros Hf Hh Hd.
  assert (Hc : first_failing_check env bc = Some HostUnknown).
  { unfold first_failing_check. now rewrite Hf, Hd, Hh. }
  intros w'. subst w'.
  rewrite (onBuild_blocked msgs lib sched env dir bc w _ Hc).
  unfold logged, build_prelude; simpl.
  repeat split; try reflexivity.
  - rewrite filter_app. simpl. now rewrite app_nil_r.
  - rewrite filter_app. simpl. now rewrite app_nil_r.
  - intros lib'. now rewrite (onBuild_blocked msgs lib' sched env dir bc w _ Hc).
Qed.

(** C7. Neither mode's precondition blocks the other mode's run. In fetch
    mode [onBuild] is never stopped by the API credentials check, and the
    check that stops it, if any, is the same whatever the API key and secret
    are; in upload mode it is never stopped for an unknown host, and the
    check that stops it, if any, is the same whatever the hosts are. *)
Theorem modes_do_not_block_each_other msgs lib sched env dir bc w :
  (deliveryType_of bc = "fetch" ->
   blocked_at (fst (onBuild msgs lib sched env dir bc w)) <> Some NoCredentials
   /\ forall apiKey apiSecret,
       blocked_at (fst (onBuild msgs lib sched (with_credentials env apiKey apiSecret) dir bc w))
       = blocked_at (fst (onBuild msgs lib sched env dir bc w)))
  /\ (deliveryType_of bc = "upload" ->
      blocked_at (fst (onBuild msgs lib sched env dir bc w)) <> Some HostUnknown
      /\ forall netlifyHost deployPrimeUrl,
          blocked_at
            (fst (onBuild msgs lib sched (with_hosts env netlifyHost deployPrimeUrl) dir bc w))
          = blocked_at (fst (onBuild msgs lib sched env dir bc w))).
Proof.
  split; intros Hd.
  - split; [|intros apiKey apiSecret]; rewrite !onBuild_exit;
      unfold first_failing_check; rewrite Hd; simpl.
    + destruct (Js.falsy (folder_of env bc)); [discriminate|].
      destruct (Js.falsy (host_of env)); [discriminate|].
      destruct (Js.falsy (cloudName_of env bc)); discriminate.
    + reflexivity.
  - split; [|intros netlifyHost deployPrimeUrl]; rewrite !onBuild_exit;
      unfold first_failing_check; rewrite Hd; simpl.
    + destruct (Js.falsy (folder_of env bc)); [discriminate|].
      destruct (Js.falsy (cloudName_of env bc)); [discriminate|].
      destruct (credentials_missing env); discriminate.
    + reflexivity.
Qed.

(** C10. After the destructuring in [onBuild] the images path is never
    undefined: it is the value of the build configuration, or [/images] from
    [CLOUDINARY_ASSET_DIRECTORIES]. The branch that throws
    [ERROR_INVALID_IMAGES_PATH] is never taken: every run of [onBuild]
    reaches its end or one of its [return]s, none throws. *)
Theorem imagesPath_is_never_undefined msgs lib sched env dir bc w :
  imagesPath_of bc
  = Some (match BuildConfig.imagesPath (config_of bc) with
          | Some p => p
          | None => PathString "/images"
          end)
  /\ (fst (onBuild msgs lib sched env dir bc w) = Normal tt
      \/ exists p, fst (onBuild msgs lib sched env dir bc w) = Returned p).
Proof.
  split; [apply imagesPath_of_value|].
  destruct (first_failing_check env bc) as [p|] eqn:Hc.
  - right. exists p. now rewrite (onBuild_blocked msgs lib sched env dir bc w p Hc).
  - rewrite (onBuild_passes msgs lib sched env dir bc w Hc).
    destruct (resolve_and_emit_completion lib sched dir (config_of bc) (deliveryType_of bc)
                (folder_of env bc) (BuildConfig.uploadPreset (config_of bc)) (host_of env)
                (imagesPath_value bc) (configured env bc (build_prelude env) w)) as [H|H].
    + now left.
    + right. now exists ResolutionFailed.
Qed.

(** ** The asset cache and the redirects *)

Lemma prefix_append (p s : string) : String.prefix p (p ^ s) = true.
Proof.
  induction p as [|a p IH]; simpl.
  - now destruct s.
  - destruct (ascii_dec a a); [exact IH|congruence].
Qed.

Lemma drop_append (p s : string) : Js.drop (String.length p) (p ^ s) = s.
Proof. induction p as [|a p IH]; simpl; [now destruct s|exact IH]. Qed.

(** Removing the publish directory from a path that starts with it strips
    the prefix. *)
Lemma replace_prefix (dir rest : string) : Js.replace (dir ^ rest) dir = rest.
Proof.
  assert (Hu : forall s pat,
             Js.replace s pat
             = if String.prefix pat s then Js.drop (String.length pat) s
               else match s with
                    | EmptyString => EmptyString
                    | String c s' => String c (Js.replace s' pat)
                    end)
    by (intros [|c s] pat; reflexivity).
  rewrite Hu, prefix_append. apply drop_append.
Qed.

(** A run that reaches its end passed the checks and resolved every file. *)
Lemma onBuild_completed msgs lib sched env dir bc w :
  fst (onBuild msgs lib sched env dir bc w) = Normal tt ->
  first_failing_check env bc = None
  /\ exists records,
      Forall2
        (resolved_as lib (Some (settings_of env bc)) (deliveryType_of bc) (folder_of env bc)
           dir (BuildConfig.uploadPreset (config_of bc)) (host_of env))
        (Library.findAssetsByPath lib (World.files w) dir (imagesPath_value bc)) records.
Proof.
  intros H.
  assert (Hc : first_failing_check env bc = None)
    by (now rewrite <- (onBuild_exit msgs lib sched env dir bc w), H).
  split; [exact Hc|].
  rewrite (onBuild_passes msgs lib sched env dir bc w Hc) in H.
  destruct (resolve_dichotomy lib (Some (settings_of env bc)) (deliveryType_of bc)
              (folder_of env bc) dir (BuildConfig.uploadPreset (config_of bc)) (host_of env)
              (Library.findAssetsByPath lib (World.files w) dir (imagesPath_value bc)))
    as [Hr|(image & e & Hin & He)]; [exact Hr|].
  destruct (resolve_and_emit_rejected lib sched dir (config_of bc) (deliveryType_of bc)
              (folder_of env bc) (BuildConfig.uploadPreset (config_of bc)) (host_of env)
              (imagesPath_value bc) (configured env bc (build_prelude env) w) image e Hin He)
    as (image' & e' & _ & _ & Hr).
  rewrite Hr in H. discriminate.
Qed.

(** The world at the end of a run in which every file resolved. *)
Lemma onBuild_resolved msgs lib sched env dir bc w records :
  first_failing_check env bc = None ->
  Forall2
    (resolved_as lib (Some (settings_of env bc)) (deliveryType_of bc) (folder_of env bc)
       dir (BuildConfig.uploadPreset (config_of bc)) (host_of env))
    (Library.findAssetsByPath lib (World.files w) dir (imagesPath_value bc)) records ->
  onBuild msgs lib sched env dir bc w
  = (Normal tt,
     World.make
       (World.events w ++ build_prelude env
        ++ discovery_log (imagesPath_value bc)
             (Library.findAssetsByPath lib (World.files w) dir (imagesPath_value bc))
        ++ [AssignImages records; ConsoleLog [Text "[Cloudinary] Done."]])
       (if (deliveryType_of bc =? "upload")%string
        then rev (map asset_rule records) ++ World.redirects w
        else World.redirects w)
       (Assets.make records) (Some (settings_of env bc)) (World.files w)
       (if (deliveryType_of bc =? "fetch")%string
        then World.pending w
             ++ map (start_fetch lib (Some (settings_of env bc)) (folder_of env bc)
                       (BuildConfig.uploadPreset (config_of bc)) (host_of env))
                  (media_paths_of bc)
        else World.pending w)).
Proof.
  intros Hc Hr.
  rewrite (onBuild_passes msgs lib sched env dir bc w Hc).
  rewrite (resolve_and_emit_resolved lib sched dir (config_of bc) (deliveryType_of bc)
             (folder_of env bc) (BuildConfig.uploadPreset (config_of bc)) (host_of env)
             (imagesPath_value bc) (configured env bc (build_prelude env) w) records Hr).
  unfold configured; simpl. now rewrite <- app_assoc.
Qed.

(** C2. If the resolution of some discovered image file throws, the
    handler catches the value some resolution threw (the first to reject),
    logs it and calls [failBuild] with its message (with the value itself
    when it is not an [Error]), and returns: the cache is not assigned and
    no redirect rule is emitted, now or by a callback left behind. *)
Theorem resolution_failure_fails_build msgs lib sched env dir bc w image0 e0 :
  first_failing_check env bc = None ->
  In image0 (Library.findAssetsByPath lib (World.files w) dir (imagesPath_value bc)) ->
  Library.getCloudinaryUrl lib (Some (settings_of env bc))
    (image_options (deliveryType_of bc) (folder_of env bc) dir
       (BuildConfig.uploadPreset (config_of bc)) (host_of env) image0) = Throw e0 ->
  exists image e,
    In image (Library.findAssetsByPath lib (World.files w) dir (imagesPath_value bc))
    /\ Library.getCloudinaryUrl lib (Some (settings_of env bc))
         (image_options (deliveryType_of bc) (folder_of env bc) dir
            (BuildConfig.uploadPreset (config_of bc)) (host_of env) image) = Throw e
    /\ fst (onBuild msgs lib sched env dir bc w) = Returned ResolutionFailed
    /\ World.events (snd (onBuild msgs lib sched env dir bc w))
       = World.events w ++ build_prelude env
         ++ [ConsoleError [Text "Error"; Value e]; FailBuild (thrown_text e)]
    /\ World.redirects (snd (onBuild msgs lib sched env dir bc w)) = World.redirects w
    /\ World.pending (snd (onBuild msgs lib sched env dir bc w)) = World.pending w
    /\ World.cloudinaryAssets (snd (onBuild msgs lib sched env dir bc w))
       = World.cloudinaryAssets w.
Proof.
  intros Hc Hin He.
  destruct (resolve_and_emit_rejected lib sched dir (config_of bc) (deliveryType_of bc)
              (folder_of env bc) (BuildConfig.uploadPreset (config_of bc)) (host_of env)
              (imagesPath_value bc) (configured env bc (build_prelude env) w) image0 e0 Hin He)
    as (image & e & Hi & Hu & Hr).
  exists image, e. split; [exact Hi|]. split; [exact Hu|].
  rewrite (onBuild_passes msgs lib sched env dir bc w Hc), Hr.
  unfold logged, configured; simpl. rewrite <- app_assoc. now repeat split.
Qed.

(** C3. In upload mode, a run of [onBuild] that reaches its end has
    resolved every discovered file to a record, assigned these records to
    the asset cache and unshifted one rule per record, in the order of the
    records: for N resolved records the first N entries of the redirect list
    are their rules, the last record first, followed by the rules that were
    there before. The rule of a record goes from its publish path followed
    by a star to its own Cloudinary URL, with status 302 and force set. *)
Theorem upload_emits_one_rule_per_asset msgs lib sched env dir bc w :
  deliveryType_of bc = "upload" ->
  fst (onBuild msgs lib sched env dir bc w) = Normal tt ->
  let w' := snd (onBuild msgs lib sched env dir bc w) in
  exists records,
    Forall2
      (fun image asset =>
         Library.getCloudinaryUrl lib (Some (settings_of env bc))
           (image_options (deliveryType_of bc) (folder_of env bc) dir
              (BuildConfig.uploadPreset (config_of bc)) (host_of env) image)
         = Ok (Asset.cloudinary asset)
         /\ Asset.publishPath asset = Js.replace image dir)
      (Library.findAssetsByPath lib (World.files w) dir (imagesPath_value bc)) records
    /\ length records
       = length (Library.findAssetsByPath lib (World.files w) dir (imagesPath_value bc))
    /\ Assets.images (World.cloudinaryAssets w') = records
    /\ World.redirects w' = rev (map asset_rule records) ++ World.redirects w
    /\ firstn (length records) (World.redirects w') = map asset_rule (rev records)
    /\ (forall i asset,
          nth_error records i = Some asset ->
          nth_error (World.redirects w') (length records - S i)
          = Some (Redirect.make (Asset.publishPath asset ^ "*") (Asset.cloudinaryUrl asset)
                    302 true))
    /\ World.pending w' = World.pending w.
Proof.
  intros Hd Hn.
  destruct (onBuild_completed msgs lib sched env dir bc w Hn) as [Hc [records Hr]].
  assert (E1 : (deliveryType_of bc =? "upload")%string = true) by now rewrite Hd.
  assert (E2 : (deliveryType_of bc =? "fetch")%string = false) by now rewrite Hd.
  rewrite (onBuild_resolved msgs lib sched env dir bc w records Hc Hr).
  cbn [snd World.redirects World.cloudinaryAssets World.pending Assets.images].
  rewrite E1, E2. exists records.
  split; [exact Hr|]. split; [symmetry; exact (Forall2_length Hr)|].
  split; [reflexivity|]. split; [reflexivity|]. split; [|split; [|reflexivity]].
  - rewrite map_rev. rewrite <- (length_map asset_rule), <- length_rev.
    rewrite <- (Nat.add_0_r (length (rev (map asset_rule records)))).
    rewrite firstn_app_2. simpl. apply app_nil_r.
  - intros i asset Hi.
    assert (Hlt : i < length records) by (apply nth_error_Some; congruence).
    rewrite nth_error_app1 by (rewrite length_rev, length_map; lia).
    rewrite nth_error_rev, length_map.
    assert (Hb : Nat.ltb (length records - S i) (length records) = true)
      by (apply Nat.ltb_lt; lia).
    rewrite Hb.
    replace (length records - S (length records - S i)) with i by lia.
    rewrite nth_error_map, Hi. reflexivity.
Qed.

(** C8. The images entry of the asset cache is assigned at most once in a
    run of [onBuild], and exactly once in a run that reaches its end: the
    one assignment is the list [Promise.all] resolves to, which has one
    record per discovered file, in the order of discovery, whatever the
    order in which the resolutions complete. The publish path of a record is
    the file path with the first occurrence of the publish directory
    removed, which for a file under the publish directory strips the
    prefix. *)
Theorem cache_is_assigned_once msgs lib sched env dir bc w :
  let w' := snd (onBuild msgs lib sched env dir bc w) in
  let assets := Assets.images (World.cloudinaryAssets w') in
  ((filter is_assignment (World.events w') = filter is_assignment (World.events w)
    /\ World.cloudinaryAssets w' = World.cloudinaryAssets w)
   \/ filter is_assignment (World.events w')
      = filter is_assignment (World.events w) ++ [AssignImages assets])
  /\ (fst (onBuild msgs lib sched env dir bc w) = Normal tt ->
      filter is_assignment (World.events w')
      = filter is_assignment (World.events w) ++ [AssignImages assets]
      /\ Forall2
           (fun image asset =>
              Library.getCloudinaryUrl lib (Some (settings_of env bc))
                (image_options (deliveryType_of bc) (folder_of env bc) dir
                   (BuildConfig.uploadPreset (config_of bc)) (host_of env) image)
              = Ok (Asset.cloudinary asset)
              /\ Asset.publishPath asset = Js.replace image dir
              /\ forall rest, image = dir ^ rest -> Asset.publishPath asset = rest)
           (Library.findAssetsByPath lib (World.files w) dir (imagesPath_value bc))
           assets).
Proof.
  assert (Hlog : forall es records,
             filter is_assignment
               (es ++ build_prelude env
                ++ discovery_log (imagesPath_value bc)
                     (Library.findAssetsByPath lib (World.files w) dir (imagesPath_value bc))
                ++ [AssignImages records; ConsoleLog [Text "[Cloudinary] Done."]])
             = filter is_assignment es ++ [AssignImages records]).
  { intros es records. rewrite !filter_app. unfold discovery_log.
    destruct (Nat.eqb _ 0); reflexivity. }
  assert (Hdone : fst (onBuild msgs lib sched env dir bc w) = Normal tt ->
            let w' := snd (onBuild msgs lib sched env dir bc w) in
            let assets := Assets.images (World.cloudinaryAssets w') in
            filter is_assignment (World.events w')
            = filter is_assignment (World.events w) ++ [AssignImages assets]
            /\ Forall2
                 (fun image asset =>
                    Library.getCloudinaryUrl lib (Some (settings_of env bc))
                      (image_options (deliveryType_of bc) (folder_of env bc) dir
                         (BuildConfig.uploadPreset (config_of bc)) (host_of env) image)
                    = Ok (Asset.cloudinary asset)
                    /\ Asset.publishPath asset = Js.replace image dir
                    /\ forall rest, image = dir ^ rest -> Asset.publishPath asset = rest)
                 (Library.findAssetsByPath lib (World.files w) dir (imagesPath_value bc))
                 assets).
  { intros Hn.
    destruct (onBuild_completed msgs lib sched env dir bc w Hn) as [Hc [records Hr]].
    rewrite (onBuild_resolved msgs lib sched env dir bc w records Hc Hr). simpl.
    split; [apply Hlog|].
    eapply Forall2_impl; [|exact Hr].
    intros image asset [Hu Hp]. split; [exact Hu|]. split; [exact Hp|].
    intros rest ->. rewrite Hp. apply replace_prefix. }
  intros w' assets. split; [|exact Hdone].
  destruct (first_failing_check env bc) as [p|] eqn:Hc.
  - left. subst w'. rewrite (onBuild_blocked msgs lib sched env dir bc w p Hc).
    unfold logged; cbn [snd World.events World.cloudinaryAssets]. split; [|reflexivity].
    rewrite filter_app.
    replace (filter is_assignment (build_prelude env ++ reported msgs p)) with (@nil Event)
      by (destruct p; reflexivity).
    apply app_nil_r.
  - destruct (resolve_dichotomy lib (Some (settings_of env bc)) (deliveryType_of bc)
                (folder_of env bc) dir (BuildConfig.uploadPreset (config_of bc)) (host_of env)
                (Library.findAssetsByPath lib (World.files w) dir (imagesPath_value bc)))
      as [[records Hr]|(image & e & Hin & He)].
    + right. apply Hdone.
      now rewrite (onBuild_resolved msgs lib sched env dir bc w records Hc Hr).
    + left. subst w'.
      destruct (resolve_and_emit_rejected lib sched dir (config_of bc) (deliveryType_of bc)
                  (folder_of env bc) (BuildConfig.uploadPreset (config_of bc)) (host_of env)
                  (imagesPath_value bc) (configured env bc (build_prelude env) w) image e
                  Hin He)
        as (image' & e' & _ & _ & Hrej).
      rewrite (onBuild_passes msgs lib sched env dir bc w Hc), Hrej.
      unfold logged, configured; simpl. split; [|reflexivity].
      rewrite !filter_app. simpl. now rewrite !app_nil_r.
Qed.

(** C9. When every pattern of the configured images path matches no file,
    discovery returns the empty sequence and a run of [onBuild] that passed
    the checks logs a warning and goes on with no asset: it reaches its end,
    calls no failure channel, and assigns the empty list to the cache. *)
Theorem empty_discovery_is_not_a_failure msgs lib glob_match sched env dir bc w :
  first_failing_check env bc = None ->
  Forall (fun pattern => glob_match (World.files w) dir pattern = [])
    (patterns_of (imagesPath_value bc)) ->
  findAssetsByPath_spec glob_match (World.files w) dir (imagesPath_value bc) = []
  /\ fst (onBuild msgs (with_findAssetsByPath lib (findAssetsByPath_spec glob_match))
            sched env dir bc w) = Normal tt
  /\ World.events
       (snd (onBuild msgs (with_findAssetsByPath lib (findAssetsByPath_spec glob_match))
               sched env dir bc w))
     = World.events w ++ build_prelude env
       ++ [ ConsoleWarn
              [Text ("[Cloudinary] No image files found in "
                     ^ ImagesPath_tmpl (imagesPath_value bc))];
            ConsoleLog
              [Text "[Cloudinary] Did you update your images path? You can set the imagesPath input in your Netlify config."];
            AssignImages [];
            ConsoleLog [Text "[Cloudinary] Done."] ]
  /\ filter is_failure
       (World.events
          (snd (onBuild msgs (with_findAssetsByPath lib (findAssetsByPath_spec glob_match))
                  sched env dir bc w)))
     = filter is_failure (World.events w)
  /\ Assets.images
       (World.cloudinaryAssets
          (snd (onBuild msgs (with_findAssetsByPath lib (findAssetsByPath_spec glob_match))
                  sched env dir bc w)))
     = [].
Proof.
  intros Hc Hnone.
  assert (Hempty : findAssetsByPath_spec glob_match (World.files w) dir (imagesPath_value bc)
                   = []).
  { unfold findAssetsByPath_spec.
    induction Hnone as [|pattern patterns Hp _ IH]; simpl; [reflexivity|].
    now rewrite Hp, IH. }
  split; [exact Hempty|].
  assert (Hr : Forall2
                 (resolved_as (with_findAssetsByPath lib (findAssetsByPath_spec glob_match))
                    (Some (settings_of env bc)) (deliveryType_of bc) (folder_of env bc) dir
                    (BuildConfig.uploadPreset (config_of bc)) (host_of env))
                 (Library.findAssetsByPath
                    (with_findAssetsByPath lib (findAssetsByPath_spec glob_match))
                    (World.files w) dir (imagesPath_value bc))
                 []).
  { simpl. rewrite Hempty. constructor. }
  rewrite (onBuild_resolved msgs _ sched env dir bc w [] Hc Hr).
  cbn [fst snd World.events World.cloudinaryAssets World.redirects Assets.images
       Library.findAssetsByPath with_findAssetsByPath].
  rewrite Hempty. unfold discovery_log. cbn [length Nat.eqb app].
  split; [reflexivity|]. split; [reflexivity|]. split; [|reflexivity].
  rewrite !filter_app. cbn. apply app_nil_r.
Qed.

(** ** Fetch mode: the callbacks left behind *)

Lemma adjacent_cons (a b r : Redirect.t) (l : list Redirect.t) :
  adjacent a b l -> adjacent a b (r :: l).
Proof. intros (k & Ha & Hb). now exists (S k). Qed.

Lemma resume_keeps (a b : Redirect.t) (t : FetchTask.t) (w : World.t) :
  adjacent a b (World.redirects w) -> adjacent a b (World.redirects (resume t w)).
Proof.
  intros H. unfold resume. destruct (FetchTask.awaited t); [|exact H].
  simpl. now do 2 apply adjacent_cons.
Qed.

Lemma resume_emits (t : FetchTask.t) (u : CloudinaryUrl.t) (w : World.t) :
  FetchTask.awaited t = Ok u ->
  World.redirects (resume t w)
  = redirect_rule (FetchTask.mediaPath t) (CloudinaryUrl.cloudinaryUrl u)
    :: passthrough_rule (FetchTask.cldAssetPath t) (FetchTask.mediaPath t)
    :: World.redirects w.
Proof. intros H. unfold resume. now rewrite H. Qed.

Lemma resume_all_keeps (a b : Redirect.t) (ts : list FetchTask.t) :
  forall w, adjacent a b (World.redirects w) ->
    adjacent a b (World.redirects (fold_left (fun w t => resume t w) ts w)).
Proof.
  induction ts as [|t ts IH]; intros w H; simpl; [exact H|].
  apply IH. now apply resume_keeps.
Qed.

(** Each callback that resumes leaves its two rules next to each other,
    the general redirect first; callbacks that resume later do not come
    between them. *)
Lemma resume_all_emits (ts : list FetchTask.t) (t : FetchTask.t) (u : CloudinaryUrl.t) :
  forall w, In t ts -> FetchTask.awaited t = Ok u ->
    adjacent (redirect_rule (FetchTask.mediaPath t) (CloudinaryUrl.cloudinaryUrl u))
      (passthrough_rule (FetchTask.cldAssetPath t) (FetchTask.mediaPath t))
      (World.redirects (fold_left (fun w t => resume t w) ts w)).
Proof.
  induction ts as [|t' ts IH]; intros w Hin Hu; simpl; [contradiction|].
  destruct Hin as [->|Hin].
  - apply resume_all_keeps. rewrite (resume_emits t u w Hu). now exists 0.
  - now apply IH.
Qed.

Lemma drain_emits (sched : list nat) (w : World.t) (t : FetchTask.t) (u : CloudinaryUrl.t) :
  In t (World.pending w) -> FetchTask.awaited t = Ok u ->
  adjacent (redirect_rule (FetchTask.mediaPath t) (CloudinaryUrl.cloudinaryUrl u))
    (passthrough_rule (FetchTask.cldAssetPath t) (FetchTask.mediaPath t))
    (World.redirects (drain sched w)).
Proof.
  intros Hin Hu. unfold drain. simpl.
  apply resume_all_emits; [|exact Hu]. now apply completion_order_in.
Qed.

(** C1, as the handler has it. In fetch mode, in a run of [onBuild] that
    reaches its end, the callback of every configured media path whose fetch
    URL is built unshifts the pass-through rule and then the general
    redirect rule: whatever the order in which the callbacks resume, the
    general redirect rule of the media path sits at some index k of the
    final redirect list and its pass-through rule at index k + 1. *)
Theorem fetch_redirect_sits_right_before_passthrough
    msgs lib sched sched' env dir bc w mediaPath u :
  deliveryType_of bc = "fetch" ->
  fst (onBuild msgs lib sched env dir bc w) = Normal tt ->
  In mediaPath (media_paths_of bc) ->
  Library.getCloudinaryUrl lib (Some (settings_of env bc))
    (UrlOptions.make "fetch" (folder_of env bc)
       ((Js.tmpl (host_of env)
         ^ ("/" ^ Library.path_join lib (Library.PUBLIC_ASSET_PATH lib) mediaPath))
        ^ "/:splat")
       None (BuildConfig.uploadPreset (config_of bc)) None) = Ok u ->
  exists k,
    nth_error (World.redirects (drain sched' (snd (onBuild msgs lib sched env dir bc w)))) k
    = Some (Redirect.make (mediaPath ^ "/*") (CloudinaryUrl.cloudinaryUrl u) 302 true)
    /\ nth_error (World.redirects (drain sched' (snd (onBuild msgs lib sched env dir bc w))))
         (S k)
       = Some (Redirect.make
                 (("/" ^ Library.path_join lib (Library.PUBLIC_ASSET_PATH lib) mediaPath) ^ "/*")
                 (mediaPath ^ "/:splat") 200 true).
Proof.
  intros Hd Hn Hin Hu.
  destruct (onBuild_completed msgs lib sched env dir bc w Hn) as [Hc [records Hr]].
  rewrite (onBuild_resolved msgs lib sched env dir bc w records Hc Hr).
  cbn [snd].
  set (t := start_fetch lib (Some (settings_of env bc)) (folder_of env bc)
              (BuildConfig.uploadPreset (config_of bc)) (host_of env) mediaPath).
  apply (drain_emits sched' _ t u); [|exact Hu].
  cbn [World.pending]. rewrite Hd. cbn.
  apply in_or_app. right. now apply in_map.
Qed.

(** C1 as stated fails on the example site: the final redirect list is the
    general redirect rule followed by the pass-through rule, so the
    pass-through rule is at no index lower than the general redirect's. *)
Lemma passthrough_is_not_before_redirect :
  Example.fetch_redirects = [Example.redirect; Example.passthrough]
  /\ ~ (exists i j,
          nth_error Example.fetch_redirects i = Some Example.passthrough
          /\ nth_error Example.fetch_redirects j = Some Example.redirect
          /\ i < j).
Proof.
  assert (H : Example.fetch_redirects = [Example.redirect; Example.passthrough])
    by (vm_compute; reflexivity).
  split; [exact H|]. rewrite H.
  intros (i & j & Hi & Hj & Hlt).
  destruct i as [|[|i]]; simpl in Hi.
  - discriminate.
  - destruct j as [|[|j]]; simpl in Hj; [lia|discriminate|].
    destruct j; discriminate.
  - destruct i; discriminate.
Qed.

(** ** The rewrite pass *)

Lemma remove_nth_map {A B : Type} (f : A -> B) (c : nat) :
  forall l, remove_nth c (map f l) = map f (remove_nth c l).
Proof.
  induction c as [|c IH]; intros [|x l]; simpl; try reflexivity.
  now rewrite IH.
Qed.

Lemma order_by_map {A B : Type} (f : A -> B) (fuel : nat) :
  forall choices l, order_by choices fuel (map f l) = map f (order_by choices fuel l).
Proof.
  induction fuel as [|fuel IH]; intros choices l; simpl; [reflexivity|].
  rewrite length_map, nth_error_map.
  destruct (nth_error l (hd 0 choices mod length l)); simpl; [|reflexivity].
  now rewrite remove_nth_map, IH.
Qed.

(** The order of settling does not depend on what the callbacks compute. *)
Lemma completion_order_map {A B : Type} (f : A -> B) (choices : list nat) (l : list A) :
  completion_order choices (map f l) = map f (completion_order choices l).
Proof. unfold completion_order. rewrite length_map. apply order_by_map. Qed.

Section Rewriting.

Variable lib : Library.t.
Variables (cfg : option CloudinaryConfig.t) (files : list (string * string))
  (options : RewriteOptions.t).

(** The callback of a page whose rewrite resolved to [r]. *)
Let callback (pr : string * Rewritten.t) : Promise PageResult.t :=
  Ok (PageResult.make (fst pr) (Rewritten.errors (snd pr)),
      writeFileSync (fst pr) (Rewritten.html (snd pr))).

Lemma rewrite_pages_callbacks (pages : list string) (rs : list Rewritten.t) :
  Forall2 (fun page r => rewritten lib cfg files options page = Ok r) pages rs ->
  map (rewrite_page lib cfg files options) pages = map callback (combine pages rs).
Proof.
  induction 1 as [|page r pages rs H _ IH]; simpl; [reflexivity|].
  rewrite IH. unfold rewrite_page. now rewrite H.
Qed.

Lemma callbacks_fulfilled (l : list (string * Rewritten.t)) :
  fulfilled (map callback l)
  = map (fun pr => PageResult.make (fst pr) (Rewritten.errors (snd pr))) l.
Proof. induction l as [|pr l IH]; simpl; [reflexivity|now rewrite IH]. Qed.

Lemma callbacks_never_reject (l : list (string * Rewritten.t)) (e : Thrown) :
  ~ In (Throw e) (map callback l).
Proof. intros H. apply in_map_iff in H as (pr & H & _). discriminate. Qed.

Lemma callbacks_write (l : list (string * Rewritten.t)) :
  forall w,
    fold_left (fun w p => match p with Ok (_, k) => k w | Throw _ => w end)
      (map callback l) w
    = World.make (World.events w) (World.redirects w) (World.cloudinaryAssets w)
        (World.cloudinary w)
        (rev (map (fun pr => (fst pr, Rewritten.html (snd pr))) l) ++ World.files w)
        (World.pending w).
Proof.
  induction l as [|pr l IH]; intros w; simpl.
  - now destruct w.
  - rewrite IH. unfold writeFileSync; simpl. now rewrite <- app_assoc.
Qed.

(** When every rewrite resolves, [Promise.all] resolves to one result per
    page, in the order of the pages, and every page has been written. *)
Lemma rewrite_all_fulfilled (sched : list nat) (pages : list string)
    (rs : list Rewritten.t) (w : World.t) :
  Forall2 (fun page r => rewritten lib cfg files options page = Ok r) pages rs ->
  Promise_all sched (map (rewrite_page lib cfg files options) pages) w
  = (Normal (map (fun pr => PageResult.make (fst pr) (Rewritten.errors (snd pr)))
               (combine pages rs)),
     World.make (World.events w) (World.redirects w) (World.cloudinaryAssets w)
       (World.cloudinary w)
       (rev (map (fun pr => (fst pr, Rewritten.html (snd pr)))
               (completion_order sched (combine pages rs)))
        ++ World.files w)
       (World.pending w)).
Proof.
  intros H. rewrite (rewrite_pages_callbacks _ _ H).
  unfold Promise_all. rewrite completion_order_map.
  destruct (settle (map callback (completion_order sched (combine pages rs))) w)
    as [o w'] eqn:Hs.
  pose proof (settle_fulfilled (map callback (completion_order sched (combine pages rs))) w
                (callbacks_never_reject _)) as Ho.
  pose proof (settle_effects (map callback (completion_order sched (combine pages rs))) w
                (callbacks_never_reject _)) as Hw.
  rewrite Hs in Ho, Hw. simpl in Ho, Hw. subst o w'.
  now rewrite callbacks_fulfilled, callbacks_write.
Qed.

End Rewriting.

(** The end of a run of [onPostBuild] in which every rewrite resolved. *)
Lemma onPostBuild_rewritten msgs lib sched env dir bc w rs :
  Js.falsy (folder_of env bc) = false ->
  Js.falsy (cloudName_of env bc) = false ->
  (deliveryType_of bc =? "upload")%string && credentials_missing env = false ->
  Forall2
    (fun page r =>
       rewritten lib (Some (settings_of env bc)) (World.files w)
         (RewriteOptions.make (World.cloudinaryAssets w) (deliveryType_of bc)
            (BuildConfig.uploadPreset (config_of bc)) (folder_of env bc) dir (host_of env))
         page = Ok r)
    (Library.glob_sync lib (World.files w) (dir ^ "/**/*.html")) rs ->
  onPostBuild msgs lib sched env dir bc w
  = (Normal tt,
     World.make
       (World.events w ++ post_prelude env
        ++ summary
             (filter (fun r => Nat.ltb 0 (length (PageResult.errors r)))
                (map (fun pr => PageResult.make (fst pr) (Rewritten.errors (snd pr)))
                   (combine (Library.glob_sync lib (World.files w) (dir ^ "/**/*.html")) rs))))
       (World.redirects w) (World.cloudinaryAssets w) (Some (settings_of env bc))
       (rev (map (fun pr => (fst pr, Rewritten.html (snd pr)))
               (completion_order sched
                  (combine (Library.glob_sync lib (World.files w) (dir ^ "/**/*.html")) rs)))
        ++ World.files w)
       (World.pending w)).
Proof.
  intros Hf Hc Hk Hr.
  unfold onPostBuild. fold_inputs env bc.
  rewrite Hf, Hc, Hk.
  unfold bind, when, console_log, emit, configureCloudinary, get, ret.
  cbn [World.events World.redirects World.cloudinaryAssets World.cloudinary World.files
       World.pending].
  fold (settings_of env bc).
  rewrite (rewrite_all_fulfilled lib _ _ _ sched _ rs _ Hr).
  unfold summary, post_prelude.
  destruct (Nat.ltb 0 _); cbn [World.events World.redirects World.cloudinaryAssets
    World.cloudinary World.files World.pending]; rewrite <- ?app_assoc; reflexivity.
Qed.

(** C4. When [onPostBuild] has passed its checks and the rewrite of every
    HTML document under the publish directory resolves, with whatever
    errors, the handler reaches its end without calling [failBuild] or
    [failPlugin]: every document is written back, the results are one per
    document, and the documents with errors are only counted and printed in
    the log. *)
Theorem rewrite_errors_do_not_fail_the_build msgs lib sched env dir bc w rs :
  Js.falsy (folder_of env bc) = false ->
  Js.falsy (cloudName_of env bc) = false ->
  (deliveryType_of bc =? "upload")%string && credentials_missing env = false ->
  Forall2
    (fun page r =>
       rewritten lib (Some (settings_of env bc)) (World.files w)
         (RewriteOptions.make (World.cloudinaryAssets w) (deliveryType_of bc)
            (BuildConfig.uploadPreset (config_of bc)) (folder_of env bc) dir (host_of env))
         page = Ok r)
    (Library.glob_sync lib (World.files w) (dir ^ "/**/*.html")) rs ->
  fst (onPostBuild msgs lib sched env dir bc w) = Normal tt
  /\ filter is_failure (World.events (snd (onPostBuild msgs lib sched env dir bc w)))
     = filter is_failure (World.events w)
  /\ World.events (snd (onPostBuild msgs lib sched env dir bc w))
     = World.events w ++ post_prelude env
       ++ summary
            (filter (fun r => Nat.ltb 0 (length (PageResult.errors r)))
               (map (fun pr => PageResult.make (fst pr) (Rewritten.errors (snd pr)))
                  (combine (Library.glob_sync lib (World.files w) (dir ^ "/**/*.html")) rs)))
  /\ exists written,
      Permutation written
        (map (fun pr => (fst pr, Rewritten.html (snd pr)))
           (combine (Library.glob_sync lib (World.files w) (dir ^ "/**/*.html")) rs))
      /\ World.files (snd (onPostBuild msgs lib sched env dir bc w))
         = written ++ World.files w.
Proof.
  intros Hf Hc Hk Hr.
  rewrite (onPostBuild_rewritten msgs lib sched env dir bc w rs Hf Hc Hk Hr).
  cbn [fst snd World.events World.files].
  split; [reflexivity|]. split; [|split; [reflexivity|]].
  - rewrite !filter_app.
    replace (filter is_failure (post_prelude env)) with (@nil Event) by reflexivity.
    unfold summary. destruct (Nat.ltb 0 _); cbn; now rewrite app_nil_r.
  - eexists. split; [|reflexivity].
    rewrite <- Permutation_rev. apply Permutation_map, completion_order_perm.
Qed.

(** ** The handlers on the example site *)

(** A fetch-mode build of the example site: the general redirect rule is
    at index 0 and the pass-through rule at index 1. *)
Lemma fetch_redirect_sits_right_before_passthrough_witness :
  deliveryType_of None = "fetch"
  /\ fst (onBuild Example.messages Example.library [] Example.env "/dist" None Example.world)
     = Normal tt
  /\ In "/images" (media_paths_of None)
  /\ exists k,
      nth_error Example.fetch_redirects k = Some Example.redirect
      /\ nth_error Example.fetch_redirects (S k) = Some Example.passthrough.
Proof.
  split; [reflexivity|]. split; [vm_compute; reflexivity|]. split; [left; reflexivity|].
  apply (fetch_redirect_sits_right_before_passthrough Example.messages Example.library
           [] [] Example.env "/dist" None Example.world "/images"
           (CloudinaryUrl.make
              "https://res.cloudinary.com/demo/image/fetch/example-site/https://example-site.netlify.app/cld-assets/images/:splat"
              None)).
  - reflexivity.
  - vm_compute; reflexivity.
  - left; reflexivity.
  - vm_compute; reflexivity.
Defined.

(** An upload-mode build of the example site with an image the CDN turns
    down: the build fails with the CDN's words and emits no redirect. *)
Lemma resolution_failure_fails_build_witness :
  first_failing_check Example.env Example.upload_config = None
  /\ fst (onBuild Example.messages Example.library [1] Example.env "/dist"
            Example.upload_config Example.world_broken) = Returned ResolutionFailed
  /\ In (FailBuild "Unsupported file")
       (World.events
          (snd (onBuild Example.messages Example.library [1] Example.env "/dist"
                  Example.upload_config Example.world_broken)))
  /\ World.redirects
       (snd (onBuild Example.messages Example.library [1] Example.env "/dist"
               Example.upload_config Example.world_broken)) = [].
Proof.
  split; [reflexivity|].
  destruct (resolution_failure_fails_build Example.messages Example.library [1] Example.env
              "/dist" Example.upload_config Example.world_broken
              "/dist/images/broken.png" (OtherValue "Unsupported file"))
    as (image & e & _ & _ & Hf & _ & Hr & _).
  - reflexivity.
  - left; reflexivity.
  - vm_compute; reflexivity.
  - split; [exact Hf|]. split; [|exact Hr].
    vm_compute. right; right; right. left; reflexivity.
Defined.

(** An upload-mode build of the example site: two assets, two rules, the
    rule of the last asset first. *)
Lemma upload_emits_one_rule_per_asset_witness :
  deliveryType_of Example.upload_config = "upload"
  /\ fst (onBuild Example.messages Example.library [1] Example.env "/dist"
            Example.upload_config Example.world) = Normal tt
  /\ Library.findAssetsByPath Example.library (World.files Example.world) "/dist"
       (imagesPath_value Example.upload_config)
     = ["/dist/images/a.png"; "/dist/images/b.png"]
  /\ World.redirects
       (snd (onBuild Example.messages Example.library [1] Example.env "/dist"
               Example.upload_config Example.world))
     = [ Redirect.make "/images/b.png*"
           "https://res.cloudinary.com/demo/image/upload/example-site/images/b.png"
           302 true;
         Redirect.make "/images/a.png*"
           "https://res.cloudinary.com/demo/image/upload/example-site/images/a.png"
           302 true ].
Proof.
  split; [reflexivity|]. split; [vm_compute; reflexivity|]. split; [reflexivity|].
  destruct (upload_emits_one_rule_per_asset Example.messages Example.library [1] Example.env
              "/dist" Example.upload_config Example.world)
    as (records & _ & _ & Hc & Hr & _).
  - reflexivity.
  - vm_compute; reflexivity.
  - rewrite Hr, <- Hc. vm_compute; reflexivity.
Defined.

(** The rewrite pass on the example site: one of the two documents has an
    error, and the handler reaches its end with no failure reported. *)
Lemma rewrite_errors_do_not_fail_the_build_witness :
  Js.falsy (folder_of Example.env None) = false
  /\ Js.falsy (cloudName_of Example.env None) = false
  /\ fst (onPostBuild Example.messages Example.library [1] Example.env "/dist" None
            Example.world) = Normal tt
  /\ filter is_failure
       (World.events
          (snd (onPostBuild Example.messages Example.library [1] Example.env "/dist" None
                  Example.world))) = [].
Proof.
  split; [reflexivity|]. split; [reflexivity|].
  destruct (rewrite_errors_do_not_fail_the_build Example.messages Example.library [1]
              Example.env "/dist" None Example.world
              [ Rewritten.make "<img src=/images/a.png>" [];
                Rewritten.make "<img src=/images/missing.png>"
                  ["Could not resolve missing.png"] ])
    as (Hn & Hf & _).
  - reflexivity.
  - reflexivity.
  - reflexivity.
  - vm_compute. repeat constructor.
  - split; [exact Hn|exact Hf].
Defined.

(** A local fetch-mode build of the example site: no host is known. *)
Lemma onBuild_host_unknown_skips_witness :
  Js.falsy (folder_of Example.env_local None) = false
  /\ Js.falsy (host_of Example.env_local) = true
  /\ deliveryType_of None = "fetch"
  /\ fst (onBuild Example.messages Example.library [] Example.env_local "/dist" None
            Example.world) = Returned HostUnknown
  /\ World.redirects
       (snd (onBuild Example.messages Example.library [] Example.env_local "/dist" None
               Example.world)) = [].
Proof.
  split; [reflexivity|]. split; [reflexivity|]. split; [reflexivity|].
  destruct (onBuild_host_unknown_skips Example.messages Example.library [] Example.env_local
              "/dist" None Example.world)
    as (Hx & _ & _ & _ & _ & Hr & _).
  - reflexivity.
  - reflexivity.
  - reflexivity.
  - split; [exact Hx|exact Hr].
Defined.

(** The production build in fetch mode is not stopped for its credentials,
    and the local build in upload mode is not stopped for its host. *)
Lemma modes_do_not_block_each_other_witness :
  deliveryType_of None = "fetch"
  /\ deliveryType_of Example.upload_config = "upload"
  /\ blocked_at
       (fst (onBuild Example.messages Example.library [] Example.env "/dist" None
               Example.world)) <> Some NoCredentials
  /\ blocked_at
       (fst (onBuild Example.messages Example.library [] Example.env_local "/dist"
               Example.upload_config Example.world)) <> Some HostUnknown.
Proof.
  split; [reflexivity|]. split; [reflexivity|]. split.
  - apply (proj1 (modes_do_not_block_each_other Example.messages Example.library []
                    Example.env "/dist" None Example.world)).
    reflexivity.
  - apply (proj2 (modes_do_not_block_each_other Example.messages Example.library []
                    Example.env_local "/dist" Example.upload_config Example.world)).
    reflexivity.
Defined.

(** An upload-mode build of the example site, the second resolution
    completing first: the cache holds the two records in the order of
    discovery. *)
Lemma cache_is_assigned_once_witness :
  fst (onBuild Example.messages Example.library [1] Example.env "/dist"
         Example.upload_config Example.world) = Normal tt
  /\ filter is_assignment
       (World.events
          (snd (onBuild Example.messages Example.library [1] Example.env "/dist"
                  Example.upload_config Example.world)))
     = [] ++ [AssignImages
                (Assets.images
                   (World.cloudinaryAssets
                      (snd (onBuild Example.messages Example.library [1] Example.env "/dist"
                              Example.upload_config Example.world))))]
  /\ map Asset.publishPath
       (Assets.images
          (World.cloudinaryAssets
             (snd (onBuild Example.messages Example.library [1] Example.env "/dist"
                     Example.upload_config Example.world))))
     = ["/images/a.png"; "/images/b.png"].
Proof.
  split; [vm_compute; reflexivity|].
  destruct (proj2 (cache_is_assigned_once Example.messages Example.library [1] Example.env
                     "/dist" Example.upload_config Example.world)) as [Ha _].
  - vm_compute; reflexivity.
  - split; [exact Ha|]. vm_compute; reflexivity.
Defined.

(** A build of a site with no image: discovery is empty and the build goes
    on. *)
Lemma empty_discovery_is_not_a_failure_witness :
  first_failing_check Example.env None = None
  /\ Forall (fun pattern => Example.glob_match (World.files Example.world_empty) "/dist" pattern = [])
       (patterns_of (imagesPath_value None))
  /\ findAssetsByPath_spec Example.glob_match (World.files Example.world_empty) "/dist"
       (imagesPath_value None) = []
  /\ fst (onBuild Example.messages
            (with_findAssetsByPath Example.library (findAssetsByPath_spec Example.glob_match))
            [] Example.env "/dist" None Example.world_empty) = Normal tt.
Proof.
  split; [reflexivity|]. split; [repeat constructor|].
  destruct (empty_discovery_is_not_a_failure Example.messages Example.library
              Example.glob_match [] Example.env "/dist" None Example.world_empty)
    as (He & Hn & _).
  - reflexivity.
  - repeat constructor.
  - split; [exact He|exact Hn].
Defined.

(** ** Every run of the build handler *)

(** A run of [onBuild] is stopped by a check, or stops at a failed
    resolution, or reaches its end. *)
Lemma onBuild_cases msgs lib sched env dir bc w :
  (exists p, first_failing_check env bc = Some p
             /\ onBuild msgs lib sched env dir bc w
                = (Returned p, logged (build_prelude env ++ reported msgs p) w))
  \/ (first_failing_check env bc = None
      /\ exists image e,
          In image (Library.findAssetsByPath lib (World.files w) dir (imagesPath_value bc))
          /\ Library.getCloudinaryUrl lib (Some (settings_of env bc))
               (image_options (deliveryType_of bc) (folder_of env bc) dir
                  (BuildConfig.uploadPreset (config_of bc)) (host_of env) image) = Throw e
          /\ onBuild msgs lib sched env dir bc w
             = (Returned ResolutionFailed, failed_world env bc e w))
  \/ (first_failing_check env bc = None
      /\ exists records,
          Forall2
            (resolved_as lib (Some (settings_of env bc)) (deliveryType_of bc)
               (folder_of env bc) dir (BuildConfig.uploadPreset (config_of bc)) (host_of env))
            (Library.findAssetsByPath lib (World.files w) dir (imagesPath_value bc)) records
          /\ onBuild msgs lib sched env dir bc w
             = (Normal tt, completed_world lib env dir bc records w)).
Proof.
  destruct (first_failing_check env bc) as [p|] eqn:Hc.
  - left. exists p. split; [reflexivity|]. now apply onBuild_blocked.
  - right.
    destruct (resolve_dichotomy lib (Some (settings_of env bc)) (deliveryType_of bc)
                (folder_of env bc) dir (BuildConfig.uploadPreset (config_of bc)) (host_of env)
                (Library.findAssetsByPath lib (World.files w) dir (imagesPath_value bc)))
      as [[records Hr]|(image0 & e0 & Hin & He)].
    + right. split; [reflexivity|]. exists records. split; [exact Hr|].
      now apply onBuild_resolved.
    + left. split; [reflexivity|].
      destruct (resolve_and_emit_rejected lib sched dir (config_of bc) (deliveryType_of bc)
                  (folder_of env bc) (BuildConfig.uploadPreset (config_of bc)) (host_of env)
                  (imagesPath_value bc) (configured env bc (build_prelude env) w) image0 e0
                  Hin He)
        as (image & e & Hi & Hu & Hrej).
      exists image, e. split; [exact Hi|]. split; [exact Hu|].
      rewrite (onBuild_passes msgs lib sched env dir bc w Hc), Hrej.
      unfold logged, configured, failed_world; simpl. now rewrite <- app_assoc.
Qed.

Lemma first_failing_check_range env bc :
  first_failing_check env bc <> Some ResolutionFailed.
Proof.
  unfold first_failing_check.
  repeat match goal with
         | |- context [if ?b then _ else _] => destruct b
         end; discriminate.
Qed.

Lemma resume_all_redirects (ts : list FetchTask.t) :
  forall w,
    World.redirects (fold_left (fun w t => resume t w) ts w)
    = flat_map rules_of (rev ts) ++ World.redirects w.
Proof.
  induction ts as [|t ts IH]; intros w; simpl; [reflexivity|].
  rewrite IH, flat_map_app. simpl. rewrite app_nil_r, <- app_assoc.
  f_equal. unfold resume, rules_of. now destruct (FetchTask.awaited t).
Qed.

Lemma resume_all_frame (ts : list FetchTask.t) :
  forall w,
    World.events (fold_left (fun w t => resume t w) ts w) = World.events w
    /\ World.cloudinaryAssets (fold_left (fun w t => resume t w) ts w)
       = World.cloudinaryAssets w
    /\ World.cloudinary (fold_left (fun w t => resume t w) ts w) = World.cloudinary w
    /\ World.files (fold_left (fun w t => resume t w) ts w) = World.files w.
Proof.
  induction ts as [|t ts IH]; intros w; simpl; [now repeat split|].
  destruct (IH (resume t w)) as (He & Ha & Hc & Hf).
  rewrite He, Ha, Hc, Hf. unfold resume.
  destruct (FetchTask.awaited t); now repeat split.
Qed.

(** The redirect list once the suspended callbacks have resumed. *)
Lemma drain_redirects (sched : list nat) (w : World.t) :
  World.redirects (drain sched w)
  = flat_map rules_of (rev (completion_order sched (World.pending w))) ++ World.redirects w.
Proof. unfold drain. simpl. apply resume_all_redirects. Qed.

Lemma rules_of_shape (ts : list FetchTask.t) :
  Forall (fun r => Redirect.force r = true
                   /\ (Redirect.status r = 302 \/ Redirect.status r = 200))
    (flat_map rules_of ts).
Proof.
  induction ts as [|t ts IH]; simpl; [constructor|].
  apply Forall_app. split; [|exact IH].
  unfold rules_of. destruct (FetchTask.awaited t); [|constructor].
  constructor; [split; [reflexivity|now left]|].
  constructor; [split; [reflexivity|now right]|constructor].
Qed.

(** X1. Whatever the run of [onBuild] and the order in which the
    callbacks left behind resume, the rules that were in the redirect list
    stay where they were, in their order: the handler only adds rules at the
    head, and every rule it adds is forced and has status 302 or 200. *)
Theorem onBuild_only_adds_rules_at_the_head msgs lib sched sched' env dir bc w :
  exists new,
    World.redirects (drain sched' (snd (onBuild msgs lib sched env dir bc w)))
    = new ++ World.redirects w
    /\ Forall (fun r => Redirect.force r = true
                        /\ (Redirect.status r = 302 \/ Redirect.status r = 200))
         new.
Proof.
  rewrite drain_redirects.
  destruct (onBuild_cases msgs lib sched env dir bc w)
    as [(p & _ & Hr)|[(_ & image & e & _ & _ & Hr)|(_ & records & _ & Hr)]];
    rewrite Hr; cbn [snd].
  - eexists. split; [reflexivity|]. apply rules_of_shape.
  - eexists. split; [reflexivity|]. apply rules_of_shape.
  - unfold completed_world. cbn [World.redirects World.pending].
    destruct (deliveryType_of bc =? "upload")%string.
    + eexists. split; [apply app_assoc|].
      apply Forall_app. split; [apply rules_of_shape|].
      apply Forall_rev, Forall_map, Forall_forall. intros a _. split; [reflexivity|now left].
    + eexists. split; [reflexivity|]. apply rules_of_shape.
Qed.

(** X2. In fetch mode, for a run of [onBuild] that reaches its end with no
    callback pending beforehand, the rules added to the redirect list are
    exactly those of the callbacks of the configured media paths, one
    callback per media path: two rules when the fetch URL of the media path
    was built, none when building it failed. The number of discovered files
    plays no part, and the order of the pairs is that in which the callbacks
    resume. *)
Theorem fetch_emits_the_rules_of_the_media_paths msgs lib sched sched' env dir bc w :
  deliveryType_of bc = "fetch" ->
  fst (onBuild msgs lib sched env dir bc w) = Normal tt ->
  World.pending w = [] ->
  exists tasks,
    Permutation tasks
      (map (start_fetch lib (Some (settings_of env bc)) (folder_of env bc)
              (BuildConfig.uploadPreset (config_of bc)) (host_of env))
         (media_paths_of bc))
    /\ World.redirects (drain sched' (snd (onBuild msgs lib sched env dir bc w)))
       = flat_map rules_of tasks ++ World.redirects w
    /\ length (World.redirects (drain sched' (snd (onBuild msgs lib sched env dir bc w))))
       <= 2 * length (media_paths_of bc) + length (World.redirects w).
Proof.
  intros Hd Hn Hp.
  destruct (onBuild_completed msgs lib sched env dir bc w Hn) as [Hc [records Hr]].
  assert (E1 : (deliveryType_of bc =? "upload")%string = false) by now rewrite Hd.
  assert (E2 : (deliveryType_of bc =? "fetch")%string = true) by now rewrite Hd.
  rewrite drain_redirects, (onBuild_resolved msgs lib sched env dir bc w records Hc Hr).
  cbn [snd World.redirects World.pending]. rewrite E1, E2, Hp. rewrite app_nil_l.
  set (tasks := map _ (media_paths_of bc)).
  assert (Hperm : Permutation (rev (completion_order sched' tasks)) tasks).
  { rewrite <- Permutation_rev. apply completion_order_perm. }
  exists (rev (completion_order sched' tasks)).
  split; [exact Hperm|]. split; [reflexivity|].
  rewrite length_app.
  assert (Hlen : forall ts, length (flat_map rules_of ts) <= 2 * length ts).
  { induction ts as [|t ts IH]; simpl; [lia|].
    rewrite length_app. unfold rules_of at 1. destruct (FetchTask.awaited t); simpl; lia. }
  pose proof (Hlen (rev (completion_order sched' tasks))) as H1.
  rewrite (Permutation_length Hperm) in H1. subst tasks. rewrite length_map in H1. lia.
Qed.

(** A run that reaches its end has assigned the cache once. *)
Lemma completed_run_assigns msgs lib sched env dir bc w :
  fst (onBuild msgs lib sched env dir bc w) = Normal tt ->
  filter is_assignment (World.events (snd (onBuild msgs lib sched env dir bc w)))
  = filter is_assignment (World.events w)
    ++ [AssignImages
          (Assets.images (World.cloudinaryAssets (snd (onBuild msgs lib sched env dir bc w))))].
Proof.
  intros Hn.
  destruct (onBuild_completed msgs lib sched env dir bc w Hn) as [Hc [records Hr]].
  rewrite (onBuild_resolved msgs lib sched env dir bc w records Hc Hr).
  cbn [snd World.events World.cloudinaryAssets Assets.images].
  rewrite !filter_app. unfold discovery_log.
  destruct (Nat.eqb _ 0); reflexivity.
Qed.

(** X3. With a delivery type that is neither [upload] nor [fetch] (the
    schema takes any string), [onBuild] checks only the folder and the cloud
    name, and no run of it adds a redirect rule or leaves a callback
    behind; a run that passes the two checks still resolves the files and,
    when they all resolve, assigns them to the cache. *)
Theorem unknown_delivery_type_emits_no_redirect msgs lib sched env dir bc w :
  deliveryType_of bc <> "upload" ->
  deliveryType_of bc <> "fetch" ->
  World.redirects (snd (onBuild msgs lib sched env dir bc w)) = World.redirects w
  /\ World.pending (snd (onBuild msgs lib sched env dir bc w)) = World.pending w
  /\ blocked_at (fst (onBuild msgs lib sched env dir bc w))
     = (if Js.falsy (folder_of env bc) then Some NoFolder
        else if Js.falsy (cloudName_of env bc) then Some NoCloudName
        else None)
  /\ (fst (onBuild msgs lib sched env dir bc w) = Normal tt ->
      filter is_assignment (World.events (snd (onBuild msgs lib sched env dir bc w)))
      = filter is_assignment (World.events w)
        ++ [AssignImages
              (Assets.images
                 (World.cloudinaryAssets (snd (onBuild msgs lib sched env dir bc w))))]).
Proof.
  intros Hu Hf.
  apply String.eqb_neq in Hu. apply String.eqb_neq in Hf.
  split; [|split; [|split]].
  - destruct (onBuild_cases msgs lib sched env dir bc w)
      as [(p & _ & Hr)|[(_ & image & e & _ & _ & Hr)|(_ & records & _ & Hr)]];
      rewrite Hr; try reflexivity.
    unfold completed_world. cbn [snd World.redirects]. now rewrite Hu.
  - destruct (onBuild_cases msgs lib sched env dir bc w)
      as [(p & _ & Hr)|[(_ & image & e & _ & _ & Hr)|(_ & records & _ & Hr)]];
      rewrite Hr; try reflexivity.
    unfold completed_world. cbn [snd World.pending]. now rewrite Hf.
  - rewrite onBuild_exit. unfold first_failing_check. rewrite Hu, Hf. reflexivity.
  - intros Hn.
    now apply completed_run_assigns.
Qed.

(** X4. In fetch mode, a run of [onBuild] that reaches its end leaves one
    callback per pattern of the images path it handed to discovery, in the
    order of the patterns (none for an empty array), with one exception: for
    an images path set to the empty string, discovery is given the empty
    string while the one callback is for [/images]. *)
Theorem fetch_callbacks_follow_the_images_path msgs lib sched env dir bc w :
  deliveryType_of bc = "fetch" ->
  fst (onBuild msgs lib sched env dir bc w) = Normal tt ->
  World.pending w = [] ->
  map FetchTask.mediaPath (World.pending (snd (onBuild msgs lib sched env dir bc w)))
  = match BuildConfig.imagesPath (config_of bc) with
    | Some (PathString "") => ["/images"]
    | _ => patterns_of (imagesPath_value bc)
    end
  /\ Forall2 (fun image asset => Asset.publishPath asset = Js.replace image dir)
       (Library.findAssetsByPath lib (World.files w) dir (imagesPath_value bc))
       (Assets.images (World.cloudinaryAssets (snd (onBuild msgs lib sched env dir bc w)))).
Proof.
  intros Hd Hn Hp.
  destruct (onBuild_completed msgs lib sched env dir bc w Hn) as [Hc [records Hr]].
  assert (E2 : (deliveryType_of bc =? "fetch")%string = true) by now rewrite Hd.
  rewrite (onBuild_resolved msgs lib sched env dir bc w records Hc Hr).
  cbn [snd World.pending World.cloudinaryAssets Assets.images]. rewrite E2, Hp, app_nil_l.
  split.
  - rewrite map_map. cbn [start_fetch FetchTask.mediaPath]. rewrite map_id.
    unfold media_paths_of, media_paths, imagesPath_value.
    change (BuildConfig_get (config_of bc) "imagesPath")
      with (match BuildConfig.imagesPath (config_of bc) with
            | Some (PathString s) => JString s
            | Some (PathArray l) => JArray l
            | None => JUndefined
            end).
    destruct (BuildConfig.imagesPath (config_of bc)) as [[[|c s]|l]|]; reflexivity.
  - eapply Forall2_impl; [|exact Hr]. intros image asset [_ H]. exact H.
Qed.

(** X5. A run of [onBuild] calls a failure channel of [utils.build] at
    most once, and when it does the call is the last thing the run does:
    nothing is logged after it, the cache has not been assigned, and no
    redirect rule and no callback has been added. The runs that call none
    are those that reach the end and those that stop for an unknown host. *)
Theorem onBuild_reports_a_failure_last msgs lib sched env dir bc w :
  exists new,
    World.events (snd (onBuild msgs lib sched env dir bc w)) = World.events w ++ new
    /\ ((filter is_failure new = []
         /\ (fst (onBuild msgs lib sched env dir bc w) = Normal tt
             \/ fst (onBuild msgs lib sched env dir bc w) = Returned HostUnknown))
        \/ (exists before f,
              new = before ++ [f]
              /\ is_failure f = true
              /\ filter is_failure before = []
              /\ filter is_assignment new = []
              /\ World.cloudinaryAssets (snd (onBuild msgs lib sched env dir bc w))
                 = World.cloudinaryAssets w
              /\ World.redirects (snd (onBuild msgs lib sched env dir bc w))
                 = World.redirects w
              /\ World.pending (snd (onBuild msgs lib sched env dir bc w))
                 = World.pending w
              /\ fst (onBuild msgs lib sched env dir bc w) <> Normal tt
              /\ fst (onBuild msgs lib sched env dir bc w) <> Returned HostUnknown)).
Proof.
  destruct (onBuild_cases msgs lib sched env dir bc w)
    as [(p & Hc & Hr)|[(_ & image & e & _ & _ & Hr)|(_ & records & _ & Hr)]];
    rewrite Hr; cbn [fst snd].
  - exists (build_prelude env ++ reported msgs p). split; [reflexivity|].
    destruct p.
    + right.
      exists (build_prelude env), (FailPlugin (Messages.ERROR_SITE_NAME_REQUIRED msgs)).
      repeat split; discriminate.
    + left. split; [reflexivity|now right].
    + right.
      exists (build_prelude env
              ++ [ConsoleError
                    [Text ("[Cloudinary] " ^ Messages.ERROR_CLOUD_NAME_REQUIRED msgs)]]),
             (FailBuild (Messages.ERROR_CLOUD_NAME_REQUIRED msgs)).
      repeat split; discriminate.
    + right.
      exists (build_prelude env
              ++ [ConsoleError
                    [Text ("[Cloudinary] " ^ Messages.ERROR_API_CREDENTIALS_REQUIRED msgs)]]),
             (FailBuild (Messages.ERROR_API_CREDENTIALS_REQUIRED msgs)).
      repeat split; discriminate.
    + now apply first_failing_check_range in Hc.
  - exists (build_prelude env
            ++ [ConsoleError [Text "Error"; Value e]; FailBuild (thrown_text e)]).
    split; [reflexivity|]. right.
    exists (build_prelude env ++ [ConsoleError [Text "Error"; Value e]]),
           (FailBuild (thrown_text e)).
    repeat split; discriminate.
  - eexists. split; [reflexivity|]. left. split; [|now left].
    rewrite !filter_app. unfold discovery_log.
    destruct (Nat.eqb _ 0); reflexivity.
Qed.

(** ** Every run of the post-build handler *)

Lemma onPostBuild_blocked msgs lib sched env dir bc w p :
  post_first_failing_check env bc = Some p ->
  onPostBuild msgs lib sched env dir bc w
  = (Returned p, logged (post_prelude env ++ reported msgs p) w).
Proof.
  unfold post_first_failing_check, onPostBuild, post_prelude.
  fold_inputs env bc. intros H.
  destruct (Js.falsy (folder_of env bc)).
  { injection H as <-. now run_handler. }
  destruct (Js.falsy (cloudName_of env bc)).
  { injection H as <-. now run_handler. }
  destruct (String.eqb (deliveryType_of bc) "upload" && credentials_missing env);
    [|discriminate].
  injection H as <-. now run_handler.
Qed.

(** A run of [onPostBuild] that passes the checks rewrites the pages found
    and logs the summary of what [Promise.all] resolves to. *)
Lemma onPostBuild_passes msgs lib sched env dir bc w :
  post_first_failing_check env bc = None ->
  onPostBuild msgs lib sched env dir bc w
  = match Promise_all sched
            (map (rewrite_page lib (Some (settings_of env bc)) (World.files w)
                    (rewrite_options env bc dir (World.cloudinaryAssets w)))
               (pages_of lib dir w))
            (configured env bc (post_prelude env) w) with
    | (Normal results, w') =>
        (Normal tt,
         logged (summary (filter (fun r => Nat.ltb 0 (length (PageResult.errors r))) results))
           w')
    | (Returned p, w') => (Returned p, w')
    | (Raised e, w') => (Raised e, w')
    end.
Proof.
  unfold post_first_failing_check, onPostBuild, post_prelude.
  fold_inputs env bc. intros H.
  destruct (Js.falsy (folder_of env bc)); [discriminate|].
  destruct (Js.falsy (cloudName_of env bc)); [discriminate|].
  destruct (String.eqb (deliveryType_of bc) "upload" && credentials_missing env);
    [discriminate|].
  unfold bind, when, console_log, emit, configureCloudinary, get, ret.
  cbn [World.events World.redirects World.cloudinaryAssets World.cloudinary World.files
       World.pending].
  fold (settings_of env bc). unfold configured, rewrite_options, pages_of.
  rewrite <- app_assoc. cbn [app].
  destruct (Promise_all sched _ _) as [[results| |] w']; try reflexivity.
  unfold summary, logged.
  destruct (Nat.ltb 0 _); cbn [World.events World.redirects World.cloudinaryAssets
    World.cloudinary World.files World.pending]; rewrite <- ?app_assoc; reflexivity.
Qed.

Section Writing.

Variable lib : Library.t.
Variables (cfg : option CloudinaryConfig.t) (files : list (string * string))
  (options : RewriteOptions.t) (pages : list string).

(** A callback of [pages.map], as [Promise.all] sees it: it rejected, or
    it writes one of the pages. *)
Let writes_a_page (q : Promise PageResult.t) : Prop :=
  match q with
  | Throw _ => True
  | Ok (_, k) => exists page html, In page pages /\ k = writeFileSync page html
  end.

Lemma rewrite_page_writes (page : string) :
  In page pages -> writes_a_page (rewrite_page lib cfg files options page).
Proof.
  intros Hin. unfold writes_a_page, rewrite_page.
  destruct (rewritten lib cfg files options page) as [r|e]; [|exact I].
  now exists page, (Rewritten.html r).
Qed.

Lemma rewrite_throw_in (e : Thrown) :
  In (Throw e) (map (rewrite_page lib cfg files options) pages) <->
  exists page, In page pages /\ rewritten lib cfg files options page = Throw e.
Proof.
  rewrite in_map_iff. unfold rewrite_page.
  split; intros (page & H1 & H2); exists page.
  - split; [exact H2|].
    destruct (rewritten lib cfg files options page); [discriminate|congruence].
  - rewrite H2. now split.
Qed.

(** Settling the callbacks adds written pages to the files and changes
    nothing else; it ends without a rejection when no callback rejected, and
    at a rejection of one of the callbacks otherwise. *)
Lemma settle_writes (qs : list (Promise PageResult.t)) :
  Forall writes_a_page qs ->
  forall w,
    exists written,
      Forall (fun pw => In (fst pw) pages) written
      /\ snd (settle qs w)
         = World.make (World.events w) (World.redirects w) (World.cloudinaryAssets w)
             (World.cloudinary w) (written ++ World.files w) (World.pending w)
      /\ ((fst (settle qs w) = None /\ forall e, ~ In (Throw e) qs)
          \/ exists e, fst (settle qs w) = Some e /\ In (Throw e) qs).
Proof.
  induction 1 as [|[[a k]|e] qs Hq _ IH]; intros w; simpl.
  - exists []. split; [constructor|]. split; [now destruct w|]. left. now split.
  - destruct Hq as (page & html & Hin & ->).
    destruct (IH (writeFileSync page html w)) as (written & Hw & Hs & Ho).
    exists (written ++ [(page, html)]). split; [|split].
    + apply Forall_app. split; [exact Hw|]. now repeat constructor.
    + rewrite Hs. unfold writeFileSync; simpl. now rewrite <- app_assoc.
    + destruct Ho as [[Ho Hn]|(e & Ho & Hin')].
      * left. split; [exact Ho|]. intros e [He|He]; [discriminate|exact (Hn e He)].
      * right. exists e. split; [exact Ho|now right].
  - exists []. split; [constructor|]. split; [now destruct w|].
    right. exists e. split; [reflexivity|now left].
Qed.

(** What [Promise.all] over the page callbacks comes to, in any world. *)
Lemma rewrite_all_cases (sched : list nat) (w : World.t) :
  exists written,
    Forall (fun pw => In (fst pw) pages) written
    /\ ((exists results,
           Promise_all sched (map (rewrite_page lib cfg files options) pages) w
           = (Normal results,
              World.make (World.events w) (World.redirects w) (World.cloudinaryAssets w)
                (World.cloudinary w) (written ++ World.files w) (World.pending w)))
        \/ (exists page e,
              In page pages
              /\ rewritten lib cfg files options page = Throw e
              /\ Promise_all sched (map (rewrite_page lib cfg files options) pages) w
                 = (Raised e,
                    World.make (World.events w) (World.redirects w)
                      (World.cloudinaryAssets w) (World.cloudinary w)
                      (written ++ World.files w) (World.pending w)))).
Proof.
  set (ps := map (rewrite_page lib cfg files options) pages).
  assert (Hq : Forall writes_a_page (completion_order sched ps)).
  { apply Forall_forall. intros q Hin. apply completion_order_in in Hin.
    apply in_map_iff in Hin as (page & <- & Hin). now apply rewrite_page_writes. }
  destruct (settle_writes _ Hq w) as (written & Hw & Hs & Ho).
  exists written. split; [exact Hw|].
  unfold Promise_all.
  destruct (settle (completion_order sched ps) w) as [o w'] eqn:E.
  simpl in Hs, Ho. subst w'.
  destruct Ho as [[-> _]|(e & -> & Hin)].
  - left. now eexists.
  - right. apply completion_order_in, rewrite_throw_in in Hin as (page & Hin & He).
    now exists page, e.
Qed.

End Writing.

(** A run of [onPostBuild] is stopped by a check, or rewrites every page
    and reaches its end, or throws what the rewrite of a page threw. In the
    last two cases it has written pages it found and changed nothing else
    but the log and the CDN settings. *)
Lemma onPostBuild_cases msgs lib sched env dir bc w :
  (exists p, post_first_failing_check env bc = Some p
             /\ onPostBuild msgs lib sched env dir bc w
                = (Returned p, logged (post_prelude env ++ reported msgs p) w))
  \/ (post_first_failing_check env bc = None
      /\ exists written,
          Forall (fun pw => In (fst pw) (pages_of lib dir w)) written
          /\ ((exists results,
                 onPostBuild msgs lib sched env dir bc w
                 = (Normal tt,
                    World.make
                      (World.events w ++ post_prelude env
                       ++ summary
                            (filter (fun r => Nat.ltb 0 (length (PageResult.errors r)))
                               results))
                      (World.redirects w) (World.cloudinaryAssets w)
                      (Some (settings_of env bc)) (written ++ World.files w)
                      (World.pending w)))
              \/ (exists page e,
                    In page (pages_of lib dir w)
                    /\ rewritten lib (Some (settings_of env bc)) (World.files w)
                         (rewrite_options env bc dir (World.cloudinaryAssets w)) page
                       = Throw e
                    /\ onPostBuild msgs lib sched env dir bc w
                       = (Raised e,
                          World.make (World.events w ++ post_prelude env)
                            (World.redirects w) (World.cloudinaryAssets w)
                            (Some (settings_of env bc)) (written ++ World.files w)
                            (World.pending w))))).
Proof.
  destruct (post_first_failing_check env bc) as [p|] eqn:Hc.
  - left. exists p. split; [reflexivity|]. now apply onPostBuild_blocked.
  - right. split; [reflexivity|].
    rewrite (onPostBuild_passes msgs lib sched env dir bc w Hc).
    destruct (rewrite_all_cases lib (Some (settings_of env bc)) (World.files w)
                (rewrite_options env bc dir (World.cloudinaryAssets w)) (pages_of lib dir w)
                sched (configured env bc (post_prelude env) w))
      as (written & Hw & [(results & Hr)|(page & e & Hin & He & Hr)]).
    + exists written. split; [exact Hw|]. left. exists results. rewrite Hr.
      unfold logged, configured; simpl. now rewrite <- app_assoc.
    + exists written. split; [exact Hw|]. right. exists page, e.
      split; [exact Hin|]. split; [exact He|]. now rewrite Hr.
Qed.

(** X6. A folder set to the empty string is not replaced by the site
    name: both handlers stop at once with [failPlugin] and
    [ERROR_SITE_NAME_REQUIRED], whatever the environment holds. *)
Theorem empty_folder_is_not_defaulted msgs lib sched env dir bc w :
  BuildConfig.folder (config_of bc) = Some "" ->
  onBuild msgs lib sched env dir bc w
  = (Returned NoFolder,
     logged (build_prelude env ++ [FailPlugin (Messages.ERROR_SITE_NAME_REQUIRED msgs)]) w)
  /\ onPostBuild msgs lib sched env dir bc w
     = (Returned NoFolder,
        logged (post_prelude env ++ [FailPlugin (Messages.ERROR_SITE_NAME_REQUIRED msgs)]) w).
Proof.
  intros H.
  assert (Hf : Js.falsy (folder_of env bc) = true) by (unfold folder_of; now rewrite H).
  split.
  - apply (onBuild_blocked msgs lib sched env dir bc w NoFolder).
    unfold first_failing_check. now rewrite Hf.
  - apply (onPostBuild_blocked msgs lib sched env dir bc w NoFolder).
    unfold post_first_failing_check. now rewrite Hf.
Qed.

Lemma onPostBuild_exit msgs lib sched env dir bc w :
  returned_at (fst (onPostBuild msgs lib sched env dir bc w))
  = post_first_failing_check env bc.
Proof.
  destruct (onPostBuild_cases msgs lib sched env dir bc w)
    as [(p & Hc & Hr)|(Hc & written & _ & [(results & Hr)|(page & e & _ & _ & Hr)])];
    rewrite Hr, Hc; reflexivity.
Qed.

(** X7. [onPostBuild] checks the folder, then the cloud name, then (in
    upload mode) the API key and secret, and returns at the first check that
    fails, having logged that check's report and changed nothing else. It
    has no check of the host: the hosts play no part in where it stops. *)
Theorem onPostBuild_first_failing_check_decides msgs lib sched env dir bc w :
  returned_at (fst (onPostBuild msgs lib sched env dir bc w))
  = post_first_failing_check env bc
  /\ match post_first_failing_check env bc with
     | Some p =>
         snd (onPostBuild msgs lib sched env dir bc w)
         = logged (post_prelude env ++ reported msgs p) w
     | None => True
     end
  /\ forall netlifyHost deployPrimeUrl,
      returned_at
        (fst (onPostBuild msgs lib sched (with_hosts env netlifyHost deployPrimeUrl) dir bc w))
      = returned_at (fst (onPostBuild msgs lib sched env dir bc w)).
Proof.
  split; [apply onPostBuild_exit|]. split.
  - destruct (post_first_failing_check env bc) as [p|] eqn:Hc; [|exact I].
    now rewrite (onPostBuild_blocked msgs lib sched env dir bc w p Hc).
  - intros netlifyHost deployPrimeUrl. now rewrite !onPostBuild_exit.
Qed.

(** X8. For one environment and build configuration, when [onBuild] is
    not stopped by a check, [onPostBuild] is not either; and when
    [onPostBuild] is not stopped while [onBuild] is, [onBuild] stopped for
    an unknown host, so the pages are rewritten against a cache the build
    did not fill. *)
Theorem post_build_passes_when_build_does msgs lib sched sched' env dir bc w w' :
  (blocked_at (fst (onBuild msgs lib sched env dir bc w)) = None ->
   returned_at (fst (onPostBuild msgs lib sched' env dir bc w')) = None)
  /\ (returned_at (fst (onPostBuild msgs lib sched' env dir bc w')) = None ->
      blocked_at (fst (onBuild msgs lib sched env dir bc w)) = None
      \/ (blocked_at (fst (onBuild msgs lib sched env dir bc w)) = Some HostUnknown
          /\ World.cloudinaryAssets (snd (onBuild msgs lib sched env dir bc w))
             = World.cloudinaryAssets w)).
Proof.
  rewrite onBuild_exit, onPostBuild_exit.
  unfold first_failing_check, post_first_failing_check.
  split; intros H.
  - destruct (Js.falsy (folder_of env bc)); [discriminate|].
    destruct ((deliveryType_of bc =? "fetch")%string && Js.falsy (host_of env));
      [discriminate|].
    destruct (Js.falsy (cloudName_of env bc)); [discriminate|].
    destruct ((deliveryType_of bc =? "upload")%string && credentials_missing env);
      [discriminate|reflexivity].
  - destruct (Js.falsy (folder_of env bc)) eqn:Hf; [discriminate|].
    destruct (Js.falsy (cloudName_of env bc)); [discriminate|].
    destruct ((deliveryType_of bc =? "upload")%string && credentials_missing env);
      [discriminate|].
    destruct ((deliveryType_of bc =? "fetch")%string && Js.falsy (host_of env)) eqn:Hh.
    + right. split; [reflexivity|].
      rewrite (onBuild_blocked msgs lib sched env dir bc w HostUnknown); [reflexivity|].
      unfold first_failing_check. now rewrite Hf, Hh.
    + now left.
Qed.

(** X9. [onBuild] never writes a file, neither in the run nor in a
    callback left behind, and it configures the CDN exactly when the run
    passes all its checks: a run stopped by a check leaves the settings as
    they were. *)
Theorem onBuild_writes_no_file msgs lib sched sched' env dir bc w :
  World.files (drain sched' (snd (onBuild msgs lib sched env dir bc w))) = World.files w
  /\ World.cloudinary (snd (onBuild msgs lib sched env dir bc w))
     = match first_failing_check env bc with
       | None => Some (settings_of env bc)
       | Some _ => World.cloudinary w
       end.
Proof.
  unfold drain. cbn [World.files].
  destruct (resume_all_frame
              (completion_order sched'
                 (World.pending (snd (onBuild msgs lib sched env dir bc w))))
              (snd (onBuild msgs lib sched env dir bc w))) as (_ & _ & _ & ->).
  destruct (onBuild_cases msgs lib sched env dir bc w)
    as [(p & Hc & Hr)|[(Hc & image & e & _ & _ & Hr)|(Hc & records & _ & Hr)]];
    rewrite Hr, Hc; now split.
Qed.

(** X10. [onPostBuild] never changes the redirect list, the asset cache
    or the callbacks left pending, in any run; to the files it only adds
    writes of HTML documents it found under the publish directory. *)
Theorem onPostBuild_writes_only_the_pages msgs lib sched env dir bc w :
  World.redirects (snd (onPostBuild msgs lib sched env dir bc w)) = World.redirects w
  /\ World.cloudinaryAssets (snd (onPostBuild msgs lib sched env dir bc w))
     = World.cloudinaryAssets w
  /\ World.pending (snd (onPostBuild msgs lib sched env dir bc w)) = World.pending w
  /\ exists written,
      World.files (snd (onPostBuild msgs lib sched env dir bc w)) = written ++ World.files w
      /\ Forall (fun pw => In (fst pw) (pages_of lib dir w)) written.
Proof.
  destruct (onPostBuild_cases msgs lib sched env dir bc w)
    as [(p & Hc & Hr)|(Hc & written & Hw & [(results & Hr)|(page & e & _ & _ & Hr)])];
    rewrite Hr; cbn [snd]; repeat (split; [reflexivity|]).
  - exists []. now split.
  - exists written. now split.
  - exists written. now split.
Qed.

(** X11. [onPostBuild] has no catch: when it has passed its checks and the
    rewrite of some page throws, the handler throws what the rewrite of a
    page threw (the first to reject). It calls no failure channel and logs
    no summary; pages whose rewrite resolved before may have been written. *)
Theorem rewrite_rejection_is_not_caught msgs lib sched env dir bc w page0 e0 :
  post_first_failing_check env bc = None ->
  In page0 (pages_of lib dir w) ->
  rewritten lib (Some (settings_of env bc)) (World.files w)
    (rewrite_options env bc dir (World.cloudinaryAssets w)) page0 = Throw e0 ->
  exists page e,
    In page (pages_of lib dir w)
    /\ rewritten lib (Some (settings_of env bc)) (World.files w)
         (rewrite_options env bc dir (World.cloudinaryAssets w)) page = Throw e
    /\ fst (onPostBuild msgs lib sched env dir bc w) = Raised e
    /\ World.events (snd (onPostBuild msgs lib sched env dir bc w))
       = World.events w ++ post_prelude env.
Proof.
  intros Hc Hin He.
  assert (Hnot : forall results w',
             onPostBuild msgs lib sched env dir bc w <> (Normal results, w')).
  { intros results w' H.
    rewrite (onPostBuild_passes msgs lib sched env dir bc w Hc) in H.
    unfold Promise_all in H.
    set (ps := map _ (pages_of lib dir w)) in H.
    assert (Ht : In (Throw e0) (completion_order sched ps)).
    { apply completion_order_in, rewrite_throw_in. now exists page0. }
    destruct (settle_rejected _ (configured env bc (post_prelude env) w) e0 Ht)
      as (e & _ & Hs).
    destruct (settle (completion_order sched ps) (configured env bc (post_prelude env) w))
      as [o w0].
    simpl in Hs. subst o. discriminate. }
  destruct (onPostBuild_cases msgs lib sched env dir bc w)
    as [(p & Hc' & _)|(_ & written & _ & [(results & Hr)|(page & e & Hi & Hu & Hr)])].
  - congruence.
  - exfalso. exact (Hnot _ _ Hr).
  - exists page, e. rewrite Hr. now repeat split.
Qed.

(** ** What the pages hold after the rewrite pass *)

Lemma read_written (l rest : list (string * string)) (page html : string) :
  NoDup (map fst l) -> In (page, html) l -> readFileSync (l ++ rest) page = Ok html.
Proof.
  induction l as [|[p h] l IH]; intros Hnd Hin; simpl in *; [contradiction|].
  inversion Hnd as [|? ? Hnotin Hnd']; subst.
  destruct Hin as [Heq|Hin].
  - injection Heq as -> ->. now rewrite String.eqb_refl.
  - destruct (String.eqb_spec p page) as [->|_]; [|now apply IH].
    exfalso. apply Hnotin. apply in_map_iff. now exists (page, html).
Qed.

Lemma read_not_written (l rest : list (string * string)) (path : string) :
  ~ In path (map fst l) -> readFileSync (l ++ rest) path = readFileSync rest path.
Proof.
  induction l as [|[p h] l IH]; intros Hnotin; simpl in *; [reflexivity|].
  destruct (String.eqb_spec p path) as [->|_]; [exfalso; apply Hnotin; now left|].
  apply IH. intros H. apply Hnotin. now right.
Qed.

Lemma combine_fst {A B : Type} (R : A -> B -> Prop) (l1 : list A) (l2 : list B) :
  Forall2 R l1 l2 -> map fst (combine l1 l2) = l1.
Proof. induction 1; simpl; [reflexivity|now f_equal]. Qed.

Lemma Forall2_combine {A B : Type} (R P : A -> B -> Prop) (l1 : list A) (l2 : list B) :
  Forall2 R l1 l2 ->
  (forall a b, In (a, b) (combine l1 l2) -> P a b) ->
  Forall2 P l1 l2.
Proof.
  induction 1 as [|a b l1 l2 _ _ IH]; intros H; constructor.
  - apply H. now left.
  - apply IH. intros a' b' Hin. apply H. now right.
Qed.

Lemma post_checks_pass env bc :
  post_first_failing_check env bc = None ->
  Js.falsy (folder_of env bc) = false
  /\ Js.falsy (cloudName_of env bc) = false
  /\ (deliveryType_of bc =? "upload")%string && credentials_missing env = false.
Proof.
  unfold post_first_failing_check.
  destruct (Js.falsy (folder_of env bc)); [discriminate|].
  destruct (Js.falsy (cloudName_of env bc)); [discriminate|].
  destruct ((deliveryType_of bc =? "upload")%string && credentials_missing env);
    [discriminate|now repeat split].
Qed.

(** X12. When [onPostBuild] has passed its checks, the pages it found are
    distinct and the rewrite of every page resolves, then afterwards every
    page holds the HTML its own rewrite returned, whatever the order in
    which the rewrites complete, and every other file reads as before. *)
Theorem every_page_holds_its_own_rewrite msgs lib sched env dir bc w rs :
  post_first_failing_check env bc = None ->
  NoDup (pages_of lib dir w) ->
  Forall2
    (fun page r =>
       rewritten lib (Some (settings_of env bc)) (World.files w)
         (rewrite_options env bc dir (World.cloudinaryAssets w)) page = Ok r)
    (pages_of lib dir w) rs ->
  Forall2
    (fun page r =>
       readFileSync (World.files (snd (onPostBuild msgs lib sched env dir bc w))) page
       = Ok (Rewritten.html r))
    (pages_of lib dir w) rs
  /\ forall path,
      ~ In path (pages_of lib dir w) ->
      readFileSync (World.files (snd (onPostBuild msgs lib sched env dir bc w))) path
      = readFileSync (World.files w) path.
Proof.
  intros Hc Hnd Hr.
  destruct (post_checks_pass env bc Hc) as (Hf & Hn & Hk).
  rewrite (onPostBuild_rewritten msgs lib sched env dir bc w rs Hf Hn Hk Hr).
  cbn [snd World.files].
  fold (pages_of lib dir w).
  set (written := rev (map (fun pr : string * Rewritten.t => (fst pr, Rewritten.html (snd pr)))
                         (completion_order sched (combine (pages_of lib dir w) rs)))).
  assert (Hperm : Permutation (map fst written) (pages_of lib dir w)).
  { subst written. rewrite map_rev, <- Permutation_rev, map_map. cbn [fst].
    rewrite <- (combine_fst _ _ _ Hr) at 2.
    apply Permutation_map, completion_order_perm. }
  split.
  - apply (Forall2_combine _ _ _ _ Hr). intros page r Hin.
    apply read_written.
    + apply (Permutation_NoDup (Permutation_sym Hperm) Hnd).
    + subst written. apply in_rev. rewrite rev_involutive.
      apply in_map_iff. exists (page, r). split; [reflexivity|].
      now apply completion_order_in.
  - intros path Hnotin. apply read_not_written.
    intros H. apply Hnotin. exact (Permutation_in _ Hperm H).
Qed.

(** ** Publish paths *)

Lemma prefix_drop (pat : string) :
  forall s, String.prefix pat s = true -> s = pat ^ Js.drop (String.length pat) s.
Proof.
  induction pat as [|a pat IH]; intros s H; simpl.
  - now destruct s.
  - destruct s as [|b s]; simpl in H; [discriminate|].
    destruct (ascii_dec a b) as [->|_]; [|discriminate].
    f_equal. now apply IH.
Qed.

Lemma append_assoc (a b c : string) : (a ^ b) ^ c = a ^ (b ^ c).
Proof. induction a as [|x a IH]; simpl; [reflexivity|now rewrite IH]. Qed.

(** [s.replace(pat, '')] removes the first occurrence of [pat] in [s], and
    leaves [s] as it is when there is none. *)
Lemma replace_cases (pat : string) :
  forall s,
    (exists a b,
        s = a ^ pat ^ b /\ Js.replace s pat = a ^ b
        /\ forall a' b', s = a' ^ pat ^ b' -> String.length a <= String.length a')
    \/ (Js.replace s pat = s /\ forall a b, s <> a ^ pat ^ b).
Proof.
  assert (Hu : forall s,
             Js.replace s pat
             = if String.prefix pat s then Js.drop (String.length pat) s
               else match s with
                    | EmptyString => EmptyString
                    | String c s' => String c (Js.replace s' pat)
                    end)
    by (intros [|c s]; reflexivity).
  induction s as [|c s IH]; rewrite Hu.
  - destruct (String.prefix pat "") eqn:Hp.
    + left. exists "", (Js.drop (String.length pat) "").
      split; [now apply prefix_drop|]. split; [reflexivity|]. intros; simpl; lia.
    + right. split; [reflexivity|]. intros a b H.
      destruct a; [|discriminate]. simpl in H.
      rewrite H, prefix_append in Hp. discriminate.
  - destruct (String.prefix pat (String c s)) eqn:Hp.
    + left. exists "", (Js.drop (String.length pat) (String c s)).
      split; [now apply prefix_drop|]. split; [reflexivity|]. intros; simpl; lia.
    + destruct IH as [(a & b & Hs & Hr & Hmin)|[Hr Hnone]].
      * left. exists (String c a), b. split; [simpl; now rewrite <- Hs|].
        split; [simpl; now rewrite Hr|].
        intros a' b' H. destruct a' as [|c' a'].
        -- simpl in H. rewrite H, prefix_append in Hp. discriminate.
        -- simpl in H. injection H as _ H. simpl. apply le_n_S. now apply (Hmin a' b').
      * right. split; [now rewrite Hr|]. intros a b H.
        destruct a as [|c' a].
        -- simpl in H. rewrite H, prefix_append in Hp. discriminate.
        -- simpl in H. injection H as _ H. exact (Hnone a b H).
Qed.

(** X13. In a run of [onBuild] that reaches its end, the publish path of
    each cached record is the path of its file with the first occurrence of
    the publish directory cut out, wherever in the path it starts; the
    publish path of a file whose path does not contain the publish directory
    is the whole path. *)
Theorem publish_path_cuts_first_occurrence msgs lib sched env dir bc w :
  fst (onBuild msgs lib sched env dir bc w) = Normal tt ->
  Forall2
    (fun image asset =>
       (exists a b,
           image = a ^ dir ^ b
           /\ Asset.publishPath asset = a ^ b
           /\ forall a' b', image = a' ^ dir ^ b' -> String.length a <= String.length a')
       \/ (Asset.publishPath asset = image /\ forall a b, image <> a ^ dir ^ b))
    (Library.findAssetsByPath lib (World.files w) dir (imagesPath_value bc))
    (Assets.images (World.cloudinaryAssets (snd (onBuild msgs lib sched env dir bc w)))).
Proof.
  intros Hn.
  destruct (onBuild_completed msgs lib sched env dir bc w Hn) as [Hc [records Hr]].
  rewrite (onBuild_resolved msgs lib sched env dir bc w records Hc Hr).
  cbn [snd World.cloudinaryAssets Assets.images].
  eapply Forall2_impl; [|exact Hr].
  intros image asset [_ Hp]. rewrite Hp. apply replace_cases.
Qed.

(** ** The two passes in a row *)

(** X14. After a run of [onBuild] that reached its end, [onPostBuild] with
    the same environment and configuration passes its checks, finds the
    pages that were there before the build and hands every rewrite the cache
    the build assigned and the settings the build configured; when every
    rewrite resolves it reaches its end with no failure reported by either
    handler, and leaves the cache, the redirect list and the callbacks of
    the build as the build left them. *)
Theorem post_build_reads_what_the_build_resolved msgs lib sched sched' env dir bc w rs :
  fst (onBuild msgs lib sched env dir bc w) = Normal tt ->
  Forall2
    (fun page r =>
       rewritten lib (Some (settings_of env bc)) (World.files w)
         (rewrite_options env bc dir
            (World.cloudinaryAssets (snd (onBuild msgs lib sched env dir bc w))))
         page = Ok r)
    (pages_of lib dir w) rs ->
  fst (onPostBuild msgs lib sched' env dir bc (snd (onBuild msgs lib sched env dir bc w)))
  = Normal tt
  /\ filter is_failure
       (World.events
          (snd (onPostBuild msgs lib sched' env dir bc
                  (snd (onBuild msgs lib sched env dir bc w)))))
     = filter is_failure (World.events w)
  /\ World.cloudinaryAssets
       (snd (onPostBuild msgs lib sched' env dir bc
               (snd (onBuild msgs lib sched env dir bc w))))
     = World.cloudinaryAssets (snd (onBuild msgs lib sched env dir bc w))
  /\ World.redirects
       (snd (onPostBuild msgs lib sched' env dir bc
               (snd (onBuild msgs lib sched env dir bc w))))
     = World.redirects (snd (onBuild msgs lib sched env dir bc w))
  /\ World.pending
       (snd (onPostBuild msgs lib sched' env dir bc
               (snd (onBuild msgs lib sched env dir bc w))))
     = World.pending (snd (onBuild msgs lib sched env dir bc w)).
Proof.
  intros Hn Hrs.
  destruct (onBuild_completed msgs lib sched env dir bc w Hn) as [Hc [records Hr]].
  assert (Hpost : post_first_failing_check env bc = None).
  { revert Hc. unfold first_failing_check, post_first_failing_check.
    destruct (Js.falsy (folder_of env bc)); [discriminate|].
    destruct ((deliveryType_of bc =? "fetch")%string && Js.falsy (host_of env));
      [discriminate|].
    destruct (Js.falsy (cloudName_of env bc)); [discriminate|].
    now destruct ((deliveryType_of bc =? "upload")%string && credentials_missing env). }
  destruct (post_checks_pass env bc Hpost) as (Hf & Hcn & Hk).
  revert Hrs. rewrite (onBuild_resolved msgs lib sched env dir bc w records Hc Hr).
  cbn [snd]. intros Hrs.
  set (w1 := World.make _ _ _ _ _ _) in *.
  assert (Hrs' : Forall2
                   (fun page r =>
                      rewritten lib (Some (settings_of env bc)) (World.files w1)
                        (RewriteOptions.make (World.cloudinaryAssets w1) (deliveryType_of bc)
                           (BuildConfig.uploadPreset (config_of bc)) (folder_of env bc) dir
                           (host_of env))
                        page = Ok r)
                   (Library.glob_sync lib (World.files w1) (dir ^ "/**/*.html")) rs)
    by exact Hrs.
  rewrite (onPostBuild_rewritten msgs lib sched' env dir bc w1 rs Hf Hcn Hk Hrs').
  cbn [fst snd World.events World.cloudinaryAssets World.redirects World.pending].
  split; [reflexivity|]. split; [|now repeat split].
  subst w1. cbn [World.events]. rewrite !filter_app.
  replace (filter is_failure (post_prelude env)) with (@nil Event) by reflexivity.
  replace (filter is_failure (build_prelude env)) with (@nil Event) by reflexivity.
  unfold summary, discovery_log.
  destruct (Nat.ltb 0 _), (Nat.eqb _ 0); cbn; now rewrite ?app_nil_r.
Qed.

(** ** More runs on the example site *)

(** The fetch-mode build of the example site: one media path, two rules. *)
Lemma fetch_emits_the_rules_of_the_media_paths_witness :
  deliveryType_of None = "fetch"
  /\ World.pending Example.world = []
  /\ exists tasks,
      Permutation tasks
        (map (start_fetch Example.library (Some (settings_of Example.env None))
                (folder_of Example.env None) None (host_of Example.env))
           (media_paths_of None))
      /\ Example.fetch_redirects = flat_map rules_of tasks ++ [].
Proof.
  split; [reflexivity|]. split; [reflexivity|].
  destruct (fetch_emits_the_rules_of_the_media_paths Example.messages Example.library [] []
              Example.env "/dist" None Example.world)
    as (tasks & Hp & Hr & _).
  - reflexivity.
  - vm_compute; reflexivity.
  - reflexivity.
  - exists tasks. split; [exact Hp|exact Hr].
Defined.

(** A build of the example site with the delivery type [Upload]: the
    files are resolved and cached, and no redirect is emitted. *)
Lemma unknown_delivery_type_emits_no_redirect_witness :
  deliveryType_of Cases.capital_upload <> "upload"
  /\ deliveryType_of Cases.capital_upload <> "fetch"
  /\ fst (onBuild Example.messages Example.library [] Example.env "/dist"
            Cases.capital_upload Example.world) = Normal tt
  /\ World.redirects
       (snd (onBuild Example.messages Example.library [] Example.env "/dist"
               Cases.capital_upload Example.world)) = []
  /\ World.pending
       (snd (onBuild Example.messages Example.library [] Example.env "/dist"
               Cases.capital_upload Example.world)) = [].
Proof.
  assert (H1 : deliveryType_of Cases.capital_upload <> "upload") by discriminate.
  assert (H2 : deliveryType_of Cases.capital_upload <> "fetch") by discriminate.
  split; [exact H1|]. split; [exact H2|]. split; [vm_compute; reflexivity|].
  destruct (unknown_delivery_type_emits_no_redirect Example.messages Example.library []
              Example.env "/dist" Cases.capital_upload Example.world H1 H2)
    as (Hr & Hp & _).
  split; [exact Hr|exact Hp].
Defined.

(** A fetch-mode build of the example site with the images path set to the
    empty string: discovery is given the empty string, the callback is for
    [/images]. *)
Lemma fetch_callbacks_follow_the_images_path_witness :
  deliveryType_of Cases.empty_images_path = "fetch"
  /\ fst (onBuild Example.messages Example.library [] Example.env "/dist"
            Cases.empty_images_path Example.world) = Normal tt
  /\ patterns_of (imagesPath_value Cases.empty_images_path) = [""]
  /\ map FetchTask.mediaPath
       (World.pending
          (snd (onBuild Example.messages Example.library [] Example.env "/dist"
                  Cases.empty_images_path Example.world)))
     = ["/images"].
Proof.
  split; [reflexivity|]. split; [vm_compute; reflexivity|]. split; [reflexivity|].
  apply (fetch_callbacks_follow_the_images_path Example.messages Example.library []
           Example.env "/dist" Cases.empty_images_path Example.world).
  - reflexivity.
  - vm_compute; reflexivity.
  - reflexivity.
Defined.

(** The example site with its folder set to the empty string: the site
    name of the environment is not used. *)
Lemma empty_folder_is_not_defaulted_witness :
  Env.SITE_NAME Example.env = Some "example-site"
  /\ BuildConfig.folder (config_of Cases.empty_folder) = Some ""
  /\ fst (onBuild Example.messages Example.library [] Example.env "/dist" Cases.empty_folder
            Example.world) = Returned NoFolder
  /\ fst (onPostBuild Example.messages Example.library [] Example.env "/dist"
            Cases.empty_folder Example.world) = Returned NoFolder.
Proof.
  split; [reflexivity|]. split; [reflexivity|].
  destruct (empty_folder_is_not_defaulted Example.messages Example.library [] Example.env
              "/dist" Cases.empty_folder Example.world) as [Hb Hp].
  - reflexivity.
  - rewrite Hb, Hp. now split.
Defined.

(** The production build passes its checks and so does the post-build; in
    the local build the post-build passes while the build stopped for its
    host. *)
Lemma post_build_passes_when_build_does_witness :
  blocked_at
    (fst (onBuild Example.messages Example.library [] Example.env "/dist" None
            Example.world)) = None
  /\ returned_at
       (fst (onPostBuild Example.messages Example.library [] Example.env "/dist" None
               Example.world)) = None
  /\ returned_at
       (fst (onPostBuild Example.messages Example.library [] Example.env_local "/dist" None
               Example.world)) = None
  /\ blocked_at
       (fst (onBuild Example.messages Example.library [] Example.env_local "/dist" None
               Example.world)) = Some HostUnknown.
Proof.
  assert (H1 : blocked_at
                 (fst (onBuild Example.messages Example.library [] Example.env "/dist" None
                         Example.world)) = None) by (vm_compute; reflexivity).
  assert (H2 : returned_at
                 (fst (onPostBuild Example.messages Example.library [] Example.env_local
                         "/dist" None Example.world)) = None) by (vm_compute; reflexivity).
  split; [exact H1|]. split; [|split; [exact H2|]].
  - exact (proj1 (post_build_passes_when_build_does Example.messages Example.library [] []
                    Example.env "/dist" None Example.world Example.world) H1).
  - destruct (proj2 (post_build_passes_when_build_does Example.messages Example.library [] []
                       Example.env_local "/dist" None Example.world Example.world) H2)
      as [H|[H _]]; [|exact H].
    vm_compute in H. discriminate.
Defined.

(** The rewrite pass with a rewrite that fails on one page: the handler
    throws. *)
Lemma rewrite_rejection_is_not_caught_witness :
  post_first_failing_check Example.env None = None
  /\ In "/dist/about.html" (pages_of Cases.failing_library "/dist" Example.world)
  /\ exists e,
      fst (onPostBuild Example.messages Cases.failing_library [] Example.env "/dist" None
             Example.world) = Raised e.
Proof.
  split; [reflexivity|]. split; [right; left; reflexivity|].
  destruct (rewrite_rejection_is_not_caught Example.messages Cases.failing_library []
              Example.env "/dist" None Example.world "/dist/about.html"
              (ErrorObject "Cannot rewrite the document"))
    as (page & e & _ & _ & Hr & _).
  - reflexivity.
  - right; left; reflexivity.
  - reflexivity.
  - now exists e.
Defined.

(** The rewrite pass on the example site, the second page completing
    first: each page holds its own HTML. *)
Lemma every_page_holds_its_own_rewrite_witness :
  post_first_failing_check Example.env None = None
  /\ pages_of Example.library "/dist" Example.world = ["/dist/index.html"; "/dist/about.html"]
  /\ Forall2
       (fun page r =>
          readFileSync
            (World.files
               (snd (onPostBuild Example.messages Example.library [1] Example.env "/dist"
                       None Example.world))) page
          = Ok (Rewritten.html r))
       (pages_of Example.library "/dist" Example.world)
       [ Rewritten.make "<img src=/images/a.png>" [];
         Rewritten.make "<img src=/images/missing.png>" ["Could not resolve missing.png"] ].
Proof.
  split; [reflexivity|]. split; [reflexivity|].
  apply (every_page_holds_its_own_rewrite Example.messages Example.library [1] Example.env
           "/dist" None Example.world).
  - reflexivity.
  - change (NoDup ["/dist/index.html"; "/dist/about.html"]).
    constructor; [|constructor; [|constructor]].
    + intros [H|[]]. discriminate.
    + intros [].
  - change (pages_of Example.library "/dist" Example.world)
      with ["/dist/index.html"; "/dist/about.html"].
    repeat constructor.
Defined.

(** A build that discovers a path relative to the publish directory and a
    path that contains its name further in. *)
Lemma publish_path_cuts_first_occurrence_witness :
  fst (onBuild Example.messages Cases.relative_library [] Example.env "/dist" None
         Example.world) = Normal tt
  /\ map Asset.publishPath
       (Assets.images
          (World.cloudinaryAssets
             (snd (onBuild Example.messages Cases.relative_library [] Example.env "/dist"
                     None Example.world))))
     = ["images/a.png"; "/www/images/b.png"]
  /\ Forall2
       (fun image asset =>
          (exists a b,
              image = a ^ "/dist" ^ b
              /\ Asset.publishPath asset = a ^ b
              /\ forall a' b',
                  image = a' ^ "/dist" ^ b' -> String.length a <= String.length a')
          \/ (Asset.publishPath asset = image /\ forall a b, image <> a ^ "/dist" ^ b))
       ["images/a.png"; "/www/dist/images/b.png"]
       (Assets.images
          (World.cloudinaryAssets
             (snd (onBuild Example.messages Cases.relative_library [] Example.env "/dist"
                     None Example.world)))).
Proof.
  split; [vm_compute; reflexivity|]. split; [vm_compute; reflexivity|].
  apply (publish_path_cuts_first_occurrence Example.messages Cases.relative_library []
           Example.env "/dist" None Example.world).
  vm_compute; reflexivity.
Defined.

(** The upload-mode build of the example site followed by the rewrite
    pass. *)
Lemma post_build_reads_what_the_build_resolved_witness :
  fst (onBuild Example.messages Example.library [1] Example.env "/dist"
         Example.upload_config Example.world) = Normal tt
  /\ fst (onPostBuild Example.messages Example.library [1] Example.env "/dist"
            Example.upload_config
            (snd (onBuild Example.messages Example.library [1] Example.env "/dist"
                    Example.upload_config Example.world))) = Normal tt
  /\ length
       (World.redirects
          (snd (onPostBuild Example.messages Example.library [1] Example.env "/dist"
                  Example.upload_config
                  (snd (onBuild Example.messages Example.library [1] Example.env "/dist"
                          Example.upload_config Example.world))))) = 2.
Proof.
  split; [vm_compute; reflexivity|].
  destruct (post_build_reads_what_the_build_resolved Example.messages Example.library [1] [1]
              Example.env "/dist" Example.upload_config Example.world
              [ Rewritten.make "<img src=/images/a.png>" [];
                Rewritten.make "<img src=/images/missing.png>"
                  ["Could not resolve missing.png"] ])
    as (Hn & _ & _ & Hr & _).
  - vm_compute; reflexivity.
  - change (pages_of Example.library "/dist" Example.world)
      with ["/dist/index.html"; "/dist/about.html"].
    repeat constructor.
  - split; [exact Hn|]. rewrite Hr. vm_compute; reflexivity.
Defined.
